(** * TickTick MCP server: cache store, tool dispatcher and transports

    A shallow embedding of [src/index.js] (the server that the container
    starts) and of the call handler and execute route of its Genspark
    variant.  The parts embedded are the cache store ([loadCache],
    [saveCache], [isTaskStale], [addTaskToCache]), the handlers, the tool
    catalog, the [CallToolRequestSchema] handler and the HTTP routes in
    front of it.

    Conventions.
    - A JavaScript string is a [string]: a sequence of code units below 256.
    - A value read from JSON is a [JSON]; a position that may hold
      [undefined] has type [option JSON], [None] being [undefined].
    - A JSON number is an integer; the code computes with no number but
      a time value.
    - An object used as a map is a [gmap string JSON]: the order in which
      [Object.entries] and [JSON.stringify] list its keys is not modelled.
      An assignment to the key [__proto__] goes through [assign_member].
    - A conversion to a string or to a time throws on an object that has a
      member [toString] of its own ([convertible]).
    - Code that can throw returns a [result]; [try]/[catch] is [catch].
    - The cache file and the clock are passed explicitly. *)

From stdpp Require Import gmap strings list fin_maps pretty.
From Stdlib Require Import ZArith Ascii.

Set Warnings "-register-all".
Local Open Scope Z_scope.
Local Open Scope string_scope.

(** ** JavaScript strings *)

(** [WhiteSpace] and [LineTerminator] code units below 256: what
    [String.prototype.trim] strips. *)
Definition is_white (c : ascii) : bool :=
  let n := N_of_ascii c in
  ((9 <=? n) && (n <=? 13) || (n =? 32) || (n =? 160))%N.

Fixpoint trim_start (s : string) : string :=
  match s with
  | EmptyString => EmptyString
  | String c r => if is_white c then trim_start r else s
  end.

Fixpoint trim_end (s : string) : string :=
  match s with
  | EmptyString => EmptyString
  | String c r =>
      match trim_end r with
      | EmptyString => if is_white c then EmptyString else String c EmptyString
      | r' => String c r'
      end
  end.

(** [s.trim()] *)
Definition trim (s : string) : string := trim_end (trim_start s).

(** [s.split(sep)] for a separator of one code unit. *)
Fixpoint split (sep : ascii) (s : string) : list string :=
  match s with
  | EmptyString => [EmptyString]
  | String c r =>
      if Ascii.eqb c sep then EmptyString :: split sep r
      else match split sep r with
           | h :: t => String c h :: t
           | [] => [String c EmptyString]
           end
  end.

(** [hay.includes(needle)] *)
Fixpoint includes (hay needle : string) : bool :=
  String.prefix needle hay ||
  match hay with
  | EmptyString => false
  | String _ r => includes r needle
  end.

(** Truthiness of a string: it is not empty. *)
Definition nonempty (s : string) : bool :=
  match s with EmptyString => false | _ => true end.

Definition newline : ascii := "010"%char.
Definition comma : ascii := ","%char.

(** ** JSON values *)

Inductive JSON : Type :=
  | JNull
  | JBool (b : bool)
  | JNum (n : Z)
  | JStr (s : string)
  | JArr (xs : list JSON)
  | JObj (props : gmap string JSON).

(** [!!v] *)
Definition truthy (v : option JSON) : bool :=
  match v with
  | None | Some JNull => false
  | Some (JBool b) => b
  | Some (JNum n) => negb (n =? 0)%Z
  | Some (JStr s) => nonempty s
  | Some (JArr _) | Some (JObj _) => true
  end.

(** [a || b] *)
Definition js_or (a : option JSON) (b : JSON) : JSON :=
  match a with
  | Some v => if truthy a then v else b
  | None => b
  end.

(** [a === b].  Two arrays or objects obtained from different places are
    never the same reference. *)
Definition strict_eq (a b : option JSON) : bool :=
  match a, b with
  | None, None => true
  | Some JNull, Some JNull => true
  | Some (JBool x), Some (JBool y) => Bool.eqb x y
  | Some (JNum x), Some (JNum y) => (x =? y)%Z
  | Some (JStr x), Some (JStr y) => String.eqb x y
  | _, _ => false
  end.

(** An object literal whose [undefined] members are dropped, as
    [JSON.stringify] does. *)
Fixpoint obj_of (members : list (string * option JSON)) : gmap string JSON :=
  match members with
  | [] => ∅
  | (k, Some v) :: rest => <[k := v]> (obj_of rest)
  | (_, None) :: rest => obj_of rest
  end.

(** A value read from JSON converts to a primitive unless it is an
    object with a member [toString] of its own: that member is no function,
    the inherited [valueOf] returns the object itself, and [ToPrimitive]
    throws.  An array converts through [join], which converts each of its
    elements but [null]. *)
Fixpoint convertible (v : JSON) : bool :=
  match v with
  | JObj props => negb (bool_decide (is_Some (props !! "toString")))
  | JArr xs => forallb convertible xs
  | JNull | JBool _ | JNum _ | JStr _ => true
  end.

(** The same on a position that may be [undefined], which converts. *)
Definition converts (v : option JSON) : bool :=
  match v with
  | Some v => convertible v
  | None => true
  end.

(** ** Errors *)

Inductive ErrorCode : Type :=
  | ParseError | InvalidRequest | MethodNotFound | InvalidParams | InternalError.

Inductive JSError : Type :=
  | TypeError (message : string)
  | RangeError (message : string)
  | SyntaxError (message : string)
  | Error (message : string)
  | McpError (code : ErrorCode) (message : string).

(** [error.message].  The texts of the engine's own [TypeError]s and the
    code prefix that the SDK puts before an [McpError]'s text are not
    modelled: the message is the constructor's argument. *)
Definition error_message (e : JSError) : string :=
  match e with
  | TypeError m | RangeError m | SyntaxError m | Error m | McpError _ m => m
  end.

Definition cannot_convert : JSError :=
  TypeError "Cannot convert object to primitive value".

Inductive result (A : Type) : Type :=
  | Ok (a : A)
  | Throw (e : JSError).
Arguments Ok {A} a.
Arguments Throw {A} e.

Definition bind {A B} (r : result A) (k : A -> result B) : result B :=
  match r with
  | Ok a => k a
  | Throw e => Throw e
  end.

Notation "x <- r ;; k" := (bind r (fun x => k))
  (at level 100, r at next level, right associativity).

(** [try { body } catch (error) { handler }] *)
Definition catch {A} (body : result A) (handler : JSError -> result A) : result A :=
  match body with
  | Ok a => Ok a
  | Throw e => handler e
  end.

(** [catch (error) { throw new Error(`${prefix}${error.message}`) }] *)
Definition rethrow {A} (prefix : string) (body : result A) : result A :=
  catch body (fun e => Throw (Error (prefix ++ error_message e))).

(** [v.k] for a key [k] that is neither an index, [length] nor a member of
    a built-in prototype. *)
Definition member (v : JSON) (k : string) : result (option JSON) :=
  match v with
  | JNull => Throw (TypeError ("Cannot read properties of null (reading '" ++ k ++ "')"))
  | JObj props => Ok (props !! k)
  | _ => Ok None
  end.

(** The same on a position that may be [undefined]. *)
Definition member_of (v : option JSON) (k : string) : result (option JSON) :=
  match v with
  | Some v => member v k
  | None => Throw (TypeError ("Cannot read properties of undefined (reading '" ++ k ++ "')"))
  end.

(** ** The cache file *)

(** The text of the cache file, up to what [JSON.parse] makes of it. *)
Inductive content : Type :=
  | Malformed
  | Serialized (v : JSON).

Definition JSON_parse (c : content) : result JSON :=
  match c with
  | Serialized v => Ok v
  | Malformed => Throw (SyntaxError "Unexpected token in JSON")
  end.

(** [JSON.stringify(data, null, 2)]: its text parses back to [data]. *)
Definition JSON_stringify (data : JSON) : content := Serialized data.

(** What is at [CACHE_FILE_PATH]. *)
Inductive file : Type :=
  | Missing
  | Unreadable
  | Holds (c : content).

Record Disk : Type := { cache_file : file; writable : bool }.

Definition existsSync (d : Disk) : bool :=
  match cache_file d with
  | Missing => false
  | _ => true
  end.

Definition readFileSync (d : Disk) : result content :=
  match cache_file d with
  | Holds c => Ok c
  | Unreadable => Throw (Error "EACCES: permission denied")
  | Missing => Throw (Error "ENOENT: no such file or directory")
  end.

Definition writeFileSync (c : content) (d : Disk) : result Disk :=
  if writable d then Ok {| cache_file := Holds c; writable := true |}
  else Throw (Error "EACCES: permission denied").

(** [{ tasks: {} }] *)
Definition empty_cache : JSON := JObj {[ "tasks" := JObj ∅ ]}.

(** [loadCache()].  The [try] block either returns the parsed document or
    is left, normally or through the [catch] that only warns; control then
    reaches the final [return { tasks: {} }]. *)
Definition loadCache (d : Disk) : JSON :=
  let returned : result (option JSON) :=
    if existsSync d then
      data <- readFileSync d ;;
      parsed <- JSON_parse data ;;
      Ok (Some parsed)
    else Ok None in
  match returned with
  | Ok (Some parsed) => parsed
  | Ok None | Throw _ => empty_cache
  end.

(** [saveCache(data)]: a failed write is logged and swallowed. *)
Definition saveCache (data : JSON) (d : Disk) : Disk :=
  match writeFileSync (JSON_stringify data) d with
  | Ok d' => d'
  | Throw _ => d
  end.

(** [initializeCache()] *)
Definition initializeCache (d : Disk) : Disk :=
  if negb (existsSync d) then saveCache empty_cache d else d.

(** [CACHE_TTL]: 24 hours in milliseconds. *)
Definition CACHE_TTL : Z := 24 * 60 * 60 * 1000.

(** ** Property assignment *)

Definition digit_of (c : ascii) : option N :=
  let n := N_of_ascii c in
  if ((48 <=? n) && (n <=? 57))%N then Some (n - 48)%N else None.

Fixpoint digits_value (acc : N) (s : string) : option N :=
  match s with
  | EmptyString => Some acc
  | String c r =>
      match digit_of c with
      | Some d => digits_value (10 * acc + d)%N r
      | None => None
      end
  end.

(** The array index that a property key denotes, if it is the canonical
    decimal text of an integer below 2^32 - 1. *)
Definition array_index (k : string) : option nat :=
  match k with
  | EmptyString => None
  | String c r =>
      if Ascii.eqb c "0"%char && nonempty r then None
      else match digits_value 0%N k with
           | Some n => if (n <? 4294967295)%N then Some (N.to_nat n) else None
           | None => None
           end
  end.

(** [xs[k] = v] on an array, as the serialized array shows it: an index
    at or past the end grows the array, the holes reading as [null]; any
    other key but [length] leaves the elements alone. *)
Definition array_assign (xs : list JSON) (k : string) (v : JSON) : result (list JSON) :=
  match array_index k with
  | Some i =>
      Ok (if decide (i < length xs)%nat then <[i := v]> xs
          else (xs ++ replicate (i - length xs) JNull ++ [v])%list)
  | None =>
      if String.eqb k "length" then Throw (RangeError "Invalid array length")
      else Ok xs
  end.

(** [records[k] = v] on an object read from JSON, as its own members show
    it.  The key [__proto__] names an own member only when the parsed text
    had it; otherwise the assignment runs the setter that [Object.prototype]
    has under that name, which changes the prototype of [records] and makes
    no own member. *)
Definition assign_member (records : gmap string JSON) (k : string) (v : JSON)
    : gmap string JSON :=
  if String.eqb k "__proto__" && negb (bool_decide (is_Some (records !! k)))
  then records
  else <[k := v]> records.

(** [cache.tasks = tasks], for the [cache] that [tasks] was read from. *)
Definition with_tasks (cache tasks : JSON) : JSON :=
  match cache with
  | JObj top => JObj (<["tasks" := tasks]> top)
  | _ => cache
  end.

(** [cache.tasks[taskId] = record], in strict mode (a class body). *)
Definition assign_task (cache : JSON) (taskId : string) (record : JSON) : result JSON :=
  tasks <- member cache "tasks" ;;
  match tasks with
  | Some (JObj records) => Ok (with_tasks cache (JObj (assign_member records taskId record)))
  | Some (JArr xs) =>
      xs' <- array_assign xs taskId record ;;
      Ok (with_tasks cache (JArr xs'))
  | Some JNull =>
      Throw (TypeError ("Cannot set properties of null (setting '" ++ taskId ++ "')"))
  | None =>
      Throw (TypeError ("Cannot set properties of undefined (setting '" ++ taskId ++ "')"))
  | Some (JBool _) | Some (JNum _) | Some (JStr _) =>
      Throw (TypeError ("Cannot create property '" ++ taskId ++ "' on a primitive"))
  end.

(** ** Cache store *)

Section CacheStore.

(** [Date.parse]: the time value of a date text, [None] for [NaN]. *)
Variable Date_parse : string -> option Z.
(** [Date.prototype.toISOString] of a valid time value. *)
Variable toISOString : Z -> string.
(** [String(v)] for a value that is not a string. *)
Variable js_toString : JSON -> string.

(** [TimeClip] *)
Definition time_clip (t : Z) : option Z :=
  if (Z.abs t <=? 8640000000000000)%Z then Some t else None.

(** The time value of [new Date(v)], [None] for an invalid date; an
    array or an object is first converted to a string. *)
Definition date_value (v : option JSON) : result (option Z) :=
  match v with
  | None => Ok None
  | Some (JStr s) => Ok (Date_parse s)
  | Some (JNum n) => Ok (time_clip n)
  | Some (JBool b) => Ok (Some (if b then 1 else 0)%Z)
  | Some JNull => Ok (Some 0%Z)
  | Some (JArr xs) =>
      if convertible (JArr xs) then Ok (Date_parse (js_toString (JArr xs)))
      else Throw cannot_convert
  | Some (JObj props) =>
      if convertible (JObj props) then Ok (Date_parse (js_toString (JObj props)))
      else Throw cannot_convert
  end.

(** [isTaskStale(task)] at [Date.now() = now]. *)
Definition isTaskStale (now : Z) (task : JSON) : result bool :=
  cached_at <- member task "cached_at" ;;
  if negb (truthy cached_at) then Ok true
  else
    t <- date_value cached_at ;;
    Ok match t with
       | Some t => (CACHE_TTL <? now - t)%Z
       | None => false
       end.

(** The record that [addTaskToCache] stores. *)
Definition cache_record (projectId title : option JSON) (now : Z) : JSON :=
  JObj (obj_of [("project_id", projectId);
                ("title", title);
                ("cached_at", Some (JStr (toISOString now)))]).

(** [addTaskToCache(taskId, projectId, title)] at [new Date() = now], for
    a [taskId] that is a string. *)
Definition addTaskToCache (now : Z) (taskId : string)
    (projectId title : option JSON) (d : Disk) : Disk :=
  let cache := loadCache d in
  match assign_task cache taskId (cache_record projectId title now) with
  | Ok cache' => saveCache cache' d
  | Throw _ => d
  end.

(** [String(v)], as a template literal [`${v}`] converts its value. *)
Definition to_text (v : option JSON) : result string :=
  match v with
  | Some (JStr s) => Ok s
  | Some v => if convertible v then Ok (js_toString v) else Throw cannot_convert
  | None => Ok "undefined"
  end.

(** The property key that a value is converted to. *)
Definition property_key (v : option JSON) : result string := to_text v.

(** [addTaskToCache(taskId, projectId, title)] for a [taskId] of any
    value: the key written is what [taskId] converts to, and a conversion
    that throws does so inside the [try], so that nothing is saved. *)
Definition addTaskToCache_value (now : Z) (taskId projectId title : option JSON)
    (d : Disk) : Disk :=
  match property_key taskId with
  | Ok key => addTaskToCache now key projectId title d
  | Throw _ => d
  end.

End CacheStore.

(** ** The platform's date and string conversions

    An instance of the three built-ins above, for evaluating the code on
    concrete inputs: [toISOString] in full, [Date.parse] on the format that
    [toISOString] writes (any other text is [NaN] here), [String] on values
    that convert and whose numbers are integers below 10^21 in magnitude
    (from there on [String] writes an exponent). *)

Module Node.

(** The civil date of a day number counted from 1970-01-01. *)
Definition civil_from_days (z : Z) : Z * Z * Z :=
  let z := (z + 719468)%Z in
  let era := (z / 146097)%Z in
  let doe := (z - era * 146097)%Z in
  let yoe := ((doe - doe / 1460 + doe / 36524 - doe / 146096) / 365)%Z in
  let doy := (doe - (365 * yoe + yoe / 4 - yoe / 100))%Z in
  let mp := ((5 * doy + 2) / 153)%Z in
  let d := (doy - (153 * mp + 2) / 5 + 1)%Z in
  let m := (if mp <? 10 then mp + 3 else mp - 9)%Z in
  let y := (yoe + era * 400 + (if m <=? 2 then 1 else 0))%Z in
  (y, m, d).

Definition days_from_civil (y m d : Z) : Z :=
  let y := (if m <=? 2 then y - 1 else y)%Z in
  let era := (y / 400)%Z in
  let yoe := (y - era * 400)%Z in
  let doy := ((153 * (if 2 <? m then m - 3 else m + 9) + 2) / 5 + d - 1)%Z in
  let doe := (yoe * 365 + yoe / 4 - yoe / 100 + doy)%Z in
  (era * 146097 + doe - 719468)%Z.

(** [n] in [w] decimal digits. *)
Fixpoint pad (w : nat) (n : Z) : string :=
  match w with
  | O => EmptyString
  | S w' => pad w' (n / 10)%Z +:+
            String (ascii_of_N (48 + Z.to_N (n mod 10))) EmptyString
  end.

Definition toISOString (t : Z) : string :=
  let day := (t / 86400000)%Z in
  let ms := (t mod 86400000)%Z in
  let '(y, m, d) := civil_from_days day in
  let year := if ((0 <=? y) && (y <=? 9999))%Z then pad 4 y
              else (if (y <? 0)%Z then "-" else "+") +:+ pad 6 (Z.abs y) in
  year +:+ "-" +:+ pad 2 m +:+ "-" +:+ pad 2 d +:+ "T" +:+
  pad 2 (ms / 3600000)%Z +:+ ":" +:+ pad 2 (ms / 60000 mod 60)%Z +:+ ":" +:+
  pad 2 (ms / 1000 mod 60)%Z +:+ "." +:+ pad 3 (ms mod 1000)%Z +:+ "Z".

(** Read [w] decimal digits. *)
Fixpoint digits (w : nat) (acc : Z) (s : string) : option (Z * string) :=
  match w, s with
  | O, _ => Some (acc, s)
  | S w', String c r =>
      match digit_of c with
      | Some d => digits w' (10 * acc + Z.of_N d)%Z r
      | None => None
      end
  | S _, EmptyString => None
  end.

Definition expect (c : ascii) (s : string) : option string :=
  match s with
  | String c' r => if Ascii.eqb c c' then Some r else None
  | EmptyString => None
  end.

Definition days_in_month (y m : Z) : Z :=
  if (m =? 2)%Z then
    if ((y mod 4 =? 0) && (negb (y mod 100 =? 0) || (y mod 400 =? 0)))%Z
    then 29%Z else 28%Z
  else if ((m =? 4) || (m =? 6) || (m =? 9) || (m =? 11))%Z then 30%Z
  else 31%Z.

(** [Date.parse] on [YYYY-MM-DDTHH:mm:ss.sssZ]. *)
Definition Date_parse (s : string) : option Z :=
  '(y, s) ← digits 4 0 s;
  s ← expect "-" s;
  '(m, s) ← digits 2 0 s;
  s ← expect "-" s;
  '(d, s) ← digits 2 0 s;
  s ← expect "T" s;
  '(hh, s) ← digits 2 0 s;
  s ← expect ":" s;
  '(mm, s) ← digits 2 0 s;
  s ← expect ":" s;
  '(ss, s) ← digits 2 0 s;
  s ← expect "." s;
  '(ms, s) ← digits 3 0 s;
  s ← expect "Z" s;
  if nonempty s then None
  else if ((1 <=? m) && (m <=? 12) && (1 <=? d) && (d <=? days_in_month y m)
           && (hh <=? 23) && (mm <=? 59) && (ss <=? 59))%Z
  then Some (days_from_civil y m d * 86400000
             + hh * 3600000 + mm * 60000 + ss * 1000 + ms)%Z
  else None.

(** [String(v)] *)
Fixpoint toString (v : JSON) : string :=
  match v with
  | JNull => "null"
  | JBool b => if b then "true" else "false"
  | JNum n => pretty n
  | JStr s => s
  | JArr xs =>
      String.concat ","
        (map (fun x => match x with JNull => EmptyString | _ => toString x end) xs)
  | JObj _ => "[object Object]"
  end.

End Node.

(** ** Tool results and handlers *)

(** What a handler returns, [{ content: [{ type: 'text', text }] }], by
    the template of its text and the data that the template shows. *)
Inductive ToolResult : Type :=
  | GenericResponse (message : string)
  | CachedTasks (tasks : list (gmap string JSON))
  | TaskRegistered (title task_id project_id : option JSON)
  | CsvImported (imported : nat)
  | Rendered (text : string)
  | MockResult (name args : option JSON).

(** A handler reads the clock (its [i]-th reading is [clock i]) and the
    request's arguments, and may rewrite the cache file. *)
Definition Handler : Type :=
  (nat -> Z) -> option JSON -> Disk -> result ToolResult * Disk.

Fixpoint mapM {A B} (f : A -> result B) (l : list A) : result (list B) :=
  match l with
  | [] => Ok []
  | x :: rest => y <- f x ;; ys <- mapM f rest ;; Ok (y :: ys)
  end.

Definition indexed (xs : list JSON) : list (string * JSON) :=
  imap (fun i x => (pretty i, x)) xs.

Definition chars (s : string) : list JSON :=
  map (fun c => JStr (String c EmptyString)) (String.list_ascii_of_string s).

(** [Object.entries(v)]; also the members that [{...v}] copies. *)
Definition own_entries (v : JSON) : list (string * JSON) :=
  match v with
  | JObj props => map_to_list props
  | JArr xs => indexed xs
  | JStr s => indexed (chars s)
  | JNull | JBool _ | JNum _ => []
  end.

(** [{ id, ...task, is_stale }] *)
Definition task_view (id : string) (task : JSON) (is_stale : bool) : gmap string JSON :=
  <["is_stale" := JBool is_stale]>
    ((list_to_map (own_entries task) : gmap string JSON) ∪ {[ "id" := JStr id ]}).

(** The lines of [csv_data] that are not blank. *)
Definition csv_lines (csv_data : string) : list string :=
  List.filter (fun line => nonempty (trim line)) (split newline csv_data).

Definition valid_header (header : string) : bool :=
  includes header "task_id" && includes header "project_id" && includes header "title".

(** [lines[i].split(',').map(s => s.trim())] *)
Definition row_fields (line : string) : list string :=
  map trim (split comma line).

Section Handlers.

Variable Date_parse : string -> option Z.
Variable toISOString : Z -> string.
Variable js_toString : JSON -> string.
(** [makeApiRequest(endpoint, method, data)]: the upstream API. *)
Variable makeApiRequest : string -> string -> option JSON -> result JSON.
(** The text of an upstream-backed handler: a template, named after its
    handler, evaluated on the values that it interpolates. *)
Variable render : string -> list (option JSON) -> result string.

Definition getProjects : Handler := fun clock args d =>
  (rethrow "Failed to get projects: "
     (projects <- makeApiRequest "/project" "GET" None ;;
      text <- render "getProjects" [Some projects] ;;
      Ok (Rendered text)),
   d).

Definition createProject : Handler := fun clock args d =>
  (rethrow "Failed to create project: "
     (name <- member_of args "name" ;;
      color <- member_of args "color" ;;
      let projectData :=
        JObj (obj_of [("name", name);
                      ("color", Some (js_or color (JStr "#3498db")))]) in
      project <- makeApiRequest "/project" "POST" (Some projectData) ;;
      text <- render "createProject" [Some project] ;;
      Ok (Rendered text)),
   d).

(** The request body that [createTask] builds. *)
Definition taskData (args : option JSON) : result JSON :=
  title <- member_of args "title" ;;
  content <- member_of args "content" ;;
  project_id <- member_of args "project_id" ;;
  priority <- member_of args "priority" ;;
  due_date <- member_of args "due_date" ;;
  dueDate <- (if truthy due_date then
                t <- date_value Date_parse js_toString due_date ;;
                match t with
                | Some t => Ok (JStr (toISOString t))
                | None => Throw (RangeError "Invalid time value")
                end
              else Ok JNull) ;;
  tags <- member_of args "tags" ;;
  Ok (JObj (obj_of [("title", title);
                    ("content", Some (js_or content (JStr "")));
                    ("projectId", Some (js_or project_id (JStr "inbox119467736")));
                    ("priority", Some (js_or priority (JNum 0)));
                    ("dueDate", Some dueDate);
                    ("tags", Some (js_or tags (JArr [])))])).

Definition createTask : Handler := fun clock args d =>
  match (data <- taskData args ;;
         task <- makeApiRequest "/task" "POST" (Some data) ;;
         id <- member task "id" ;;
         projectId <- member task "projectId" ;;
         title <- member task "title" ;;
         Ok (task, id, projectId, title)) with
  | Ok (task, id, projectId, title) =>
      (rethrow "Failed to create task: "
         (text <- render "createTask" [Some task] ;; Ok (Rendered text)),
       addTaskToCache_value toISOString js_toString (clock 0%nat) id projectId title d)
  | Throw e => (Throw (Error ("Failed to create task: " ++ error_message e)), d)
  end.

(** The conversions that the text of a listing makes for one entry:
    [${t.title}], [${t.id}], [${t.project_id}] and [new Date(t.cached_at)]. *)
Definition entry_text (t : gmap string JSON) : result unit :=
  title <- to_text js_toString (t !! "title") ;;
  id <- to_text js_toString (t !! "id") ;;
  project_id <- to_text js_toString (t !! "project_id") ;;
  cached <- date_value Date_parse js_toString (t !! "cached_at") ;;
  Ok tt.

(** The clock is read once for every record; the readings of one listing
    are taken to be the same instant, [clock 0]. *)
Definition getCachedTasks : Handler := fun clock args d =>
  (rethrow "Failed to get cached tasks: "
     (let cache := loadCache d in
      entries <- member cache "tasks" ;;
      tasks <- mapM (fun '(id, task) =>
                       is_stale <- isTaskStale Date_parse js_toString (clock 0%nat) task ;;
                       Ok (task_view id task is_stale))
                    (own_entries (js_or entries (JObj ∅))) ;;
      project_id <- member_of args "project_id" ;;
      let tasks :=
        if truthy project_id
        then List.filter (fun t => strict_eq (t !! "project_id") project_id) tasks
        else tasks in
      include_stale <- member_of args "include_stale" ;;
      let tasks :=
        if negb (truthy include_stale)
        then List.filter (fun t => negb (truthy (t !! "is_stale"))) tasks
        else tasks in
      texts <- mapM entry_text tasks ;;
      Ok (CachedTasks tasks)),
   d).

Definition registerTaskId : Handler := fun clock args d =>
  match (task_id <- member_of args "task_id" ;;
         project_id <- member_of args "project_id" ;;
         title <- member_of args "title" ;;
         Ok (task_id, project_id, title)) with
  | Ok (task_id, project_id, title) =>
      (rethrow "Failed to register task: "
         (title_text <- to_text js_toString title ;;
          id_text <- to_text js_toString task_id ;;
          project_text <- to_text js_toString project_id ;;
          Ok (TaskRegistered title task_id project_id)),
       addTaskToCache_value toISOString js_toString (clock 0%nat) task_id project_id title d)
  | Throw e => (Throw (Error ("Failed to register task: " ++ error_message e)), d)
  end.

(** The loop of [importFromCsv] from line [i] on; [clock i] is the time
    at which line [i] is reached. *)
Fixpoint import_rows (clock : nat -> Z) (i : nat) (rows : list string)
    (imported : nat) (d : Disk) : nat * Disk :=
  match rows with
  | [] => (imported, d)
  | line :: rest =>
      match row_fields line with
      | task_id :: project_id :: title :: _ =>
          if nonempty task_id && nonempty project_id && nonempty title then
            import_rows clock (S i) rest (S imported)
              (addTaskToCache toISOString (clock i) task_id
                 (Some (JStr project_id)) (Some (JStr title)) d)
          else import_rows clock (S i) rest imported d
      | _ => import_rows clock (S i) rest imported d
      end
  end.

Definition importFromCsv : Handler := fun clock args d =>
  match rethrow "Failed to import CSV: "
          (csv_data <- member_of args "csv_data" ;;
           lines <- match csv_data with
                    | Some (JStr text) => Ok (csv_lines text)
                    | _ => Throw (TypeError "args.csv_data.split is not a function")
                    end ;;
           match lines with
           | [] => Throw (TypeError "Cannot read properties of undefined (reading 'includes')")
           | header :: rows =>
               if valid_header header then Ok rows
               else Throw (Error "CSV must have columns: task_id, project_id, title")
           end) with
  | Ok rows =>
      let '(imported, d') := import_rows clock 1 rows 0 d in
      (Ok (CsvImported imported), d')
  | Throw e => (Throw e, d)
  end.

Definition getHabits : Handler := fun clock args d =>
  (rethrow "Failed to get habits: "
     (habits <- makeApiRequest "/habits" "GET" None ;;
      text <- render "getHabits" [Some habits] ;;
      Ok (Rendered text)),
   d).

Definition startFocusSession : Handler := fun clock args d =>
  (rethrow "Failed to start focus session: "
     (task_id <- member_of args "task_id" ;;
      duration <- member_of args "duration" ;;
      let sessionData :=
        JObj (obj_of [("taskId", task_id);
                      ("duration", Some (js_or duration (JNum 25)))]) in
      session <- makeApiRequest "/focus/start" "POST" (Some sessionData) ;;
      text <- render "startFocusSession"
                [Some (js_or duration (JNum 25)); task_id; Some session] ;;
      Ok (Rendered text)),
   d).

Definition getTodayTasks : Handler := fun clock args d =>
  (rethrow "Failed to get today's tasks: "
     (let today := hd EmptyString (split "T"%char (toISOString (clock 0%nat))) in
      tasks <- makeApiRequest ("/tasks/today?date=" ++ today) "GET" None ;;
      text <- render "getTodayTasks" [Some tasks] ;;
      Ok (Rendered text)),
   d).

(** [createGenericResponse(message)], behind the placeholder handlers. *)
Definition createGenericResponse (message : string) : Handler :=
  fun clock args d => (Ok (GenericResponse message), d).

(** The [case] labels of the [switch] in the call handler, each with the
    method that it calls. *)
Definition cases : list (string * Handler) :=
  [ ("ticktick_get_projects", getProjects);
    ("ticktick_create_project", createProject);
    ("ticktick_create_task", createTask);
    ("ticktick_update_task", createGenericResponse "Task updated successfully");
    ("ticktick_delete_task", createGenericResponse "Task deleted successfully");
    ("ticktick_complete_task", createGenericResponse "Task completed successfully");
    ("ticktick_get_task_details", createGenericResponse "Task details retrieved");
    ("ticktick_get_cached_tasks", getCachedTasks);
    ("ticktick_register_task_id", registerTaskId);
    ("ticktick_import_from_csv", importFromCsv);
    ("ticktick_get_habits", getHabits);
    ("ticktick_create_habit", createGenericResponse "Habit created successfully");
    ("ticktick_checkin_habit", createGenericResponse "Habit checked in successfully");
    ("ticktick_start_focus_session", startFocusSession);
    ("ticktick_get_focus_stats", createGenericResponse "Focus stats retrieved");
    ("ticktick_get_tags", createGenericResponse "Tags retrieved successfully");
    ("ticktick_create_tag", createGenericResponse "Tag created successfully");
    ("ticktick_add_tag_to_task", createGenericResponse "Tag added to task");
    ("ticktick_archive_project", createGenericResponse "Project archived successfully");
    ("ticktick_duplicate_project", createGenericResponse "Project duplicated successfully");
    ("ticktick_get_calendar_events", createGenericResponse "Calendar events retrieved");
    ("ticktick_create_calendar_event", createGenericResponse "Calendar event created");
    ("ticktick_get_productivity_report", createGenericResponse "Productivity report generated");
    ("ticktick_get_today_tasks", getTodayTasks);
    ("ticktick_get_overdue_tasks", createGenericResponse "Overdue tasks retrieved");
    ("ticktick_share_project", createGenericResponse "Project shared successfully");
    ("ticktick_add_task_note", createGenericResponse "Note added to task") ].

(** [switch (name)]: the first label equal to [name]. *)
Definition switch (name : string) : option Handler :=
  snd <$> List.find (fun c => String.eqb name (fst c)) cases.

(** The handler registered for [CallToolRequestSchema]. *)
Definition callTool (clock : nat -> Z) (name : string) (args : option JSON)
    (d : Disk) : result ToolResult * Disk :=
  let '(outcome, d') :=
    match switch name with
    | Some handler => handler clock args d
    | None => (Throw (McpError MethodNotFound ("Unknown tool: " ++ name)), d)
    end in
  (catch outcome (fun error => Throw (McpError InternalError (error_message error))), d').

End Handlers.

(** ** The advertised catalog *)

Inductive JType : Type := TString | TNumber | TBoolean | TArray.

(** A member of [inputSchema.properties]: its [type] and its [default]. *)
Record Property : Type :=
  { prop_name : string; prop_type : JType; prop_default : option JSON }.

Record Tool : Type :=
  { tool_name : string; properties : list Property; required : list string }.

Definition prop (name : string) (type : JType) : Property :=
  {| prop_name := name; prop_type := type; prop_default := None |}.

Definition prop_default_to (name : string) (type : JType) (default : JSON) : Property :=
  {| prop_name := name; prop_type := type; prop_default := Some default |}.

Definition tool (name : string) (properties : list Property) (required : list string) : Tool :=
  {| tool_name := name; properties := properties; required := required |}.

(** The [tools] array that the [ListToolsRequestSchema] handler returns. *)
Definition tools : list Tool :=
  [ tool "ticktick_get_projects"
      [prop_default_to "include_archived" TBoolean (JBool false)] [];
    tool "ticktick_create_project"
      [prop "name" TString; prop_default_to "color" TString (JStr "#3498db")]
      ["name"];
    tool "ticktick_create_task"
      [prop "title" TString; prop "content" TString; prop "project_id" TString;
       prop_default_to "priority" TNumber (JNum 0); prop "due_date" TString;
       prop "tags" TArray]
      ["title"];
    tool "ticktick_update_task"
      [prop "task_id" TString; prop "title" TString; prop "content" TString;
       prop "priority" TNumber; prop "completed" TBoolean]
      ["task_id"];
    tool "ticktick_delete_task" [prop "task_id" TString] ["task_id"];
    tool "ticktick_complete_task" [prop "task_id" TString] ["task_id"];
    tool "ticktick_get_task_details" [prop "task_id" TString] ["task_id"];
    tool "ticktick_get_cached_tasks"
      [prop "project_id" TString;
       prop_default_to "include_stale" TBoolean (JBool true)] [];
    tool "ticktick_register_task_id"
      [prop "task_id" TString; prop "project_id" TString; prop "title" TString]
      ["task_id"; "project_id"; "title"];
    tool "ticktick_import_from_csv" [prop "csv_data" TString] ["csv_data"];
    tool "ticktick_get_habits"
      [prop_default_to "include_archived" TBoolean (JBool false)] [];
    tool "ticktick_create_habit"
      [prop "name" TString; prop_default_to "frequency" TString (JStr "daily");
       prop_default_to "goal" TNumber (JNum 1)]
      ["name"];
    tool "ticktick_checkin_habit"
      [prop "habit_id" TString; prop "date" TString;
       prop_default_to "count" TNumber (JNum 1)]
      ["habit_id"];
    tool "ticktick_start_focus_session"
      [prop "task_id" TString; prop_default_to "duration" TNumber (JNum 25)] [];
    tool "ticktick_get_focus_stats"
      [prop_default_to "period" TString (JStr "today")] [];
    tool "ticktick_get_tags" [] [];
    tool "ticktick_create_tag"
      [prop "name" TString; prop_default_to "color" TString (JStr "#3498db")]
      ["name"];
    tool "ticktick_add_tag_to_task"
      [prop "task_id" TString; prop "tag_name" TString] ["task_id"; "tag_name"];
    tool "ticktick_archive_project" [prop "project_id" TString] ["project_id"];
    tool "ticktick_duplicate_project"
      [prop "project_id" TString; prop "new_name" TString;
       prop_default_to "include_tasks" TBoolean (JBool true)]
      ["project_id"; "new_name"];
    tool "ticktick_get_calendar_events"
      [prop "start_date" TString; prop "end_date" TString] [];
    tool "ticktick_create_calendar_event"
      [prop "title" TString; prop "start_time" TString; prop "end_time" TString]
      ["title"; "start_time"; "end_time"];
    tool "ticktick_get_productivity_report"
      [prop_default_to "period" TString (JStr "week");
       prop_default_to "include_charts" TBoolean (JBool false)] [];
    tool "ticktick_get_today_tasks"
      [prop_default_to "include_overdue" TBoolean (JBool true)] [];
    tool "ticktick_get_overdue_tasks"
      [prop_default_to "limit" TNumber (JNum 50)] [];
    tool "ticktick_share_project"
      [prop "project_id" TString; prop "emails" TArray;
       prop_default_to "permission_level" TString (JStr "edit")]
      ["project_id"; "emails"];
    tool "ticktick_add_task_note"
      [prop "task_id" TString; prop "note_content" TString]
      ["task_id"; "note_content"] ].

Definition lookup_tool (name : string) : option Tool :=
  List.find (fun t => String.eqb name (tool_name t)) tools.

(** The argument normalisation that the design describes for the
    dispatcher (this definition follows the specification, not the code):
    every property that has a declared default and is absent from the
    arguments receives that default; everything else passes through. *)
Definition spec_fill_defaults (t : Tool) (args : option JSON) : option JSON :=
  let given : gmap string JSON :=
    match args with
    | Some (JObj props) => props
    | _ => ∅
    end in
  Some (JObj (foldr (fun p acc =>
                       match prop_default p, given !! prop_name p with
                       | Some default, None => <[prop_name p := default]> acc
                       | _, _ => acc
                       end) given (properties t))).

(** ** Transports *)

(** The JSON-RPC answer that the SDK sends for the outcome of a request
    handler: its result, or an error carrying the code and message of what
    it threw (any error without a code counts as an internal error). *)
Inductive RpcResponse : Type :=
  | RpcResult (result : ToolResult)
  | RpcError (code : ErrorCode) (message : string).

Definition rpc_respond (outcome : result ToolResult) : RpcResponse :=
  match outcome with
  | Ok r => RpcResult r
  | Throw (McpError code message) => RpcError code message
  | Throw e => RpcError InternalError (error_message e)
  end.

(** The body that a route sends with [res.json]; [data] is absent when
    the value serialized is [undefined]. *)
Inductive HttpBody : Type :=
  | Success (tool : option string) (data : option ToolResult)
  | Failure (tool : option string) (error : string).

Record HttpResponse : Type := { status : nat; body : HttpBody }.

(** What the expression
    [this.server._requestHandlers.get('tools/call')?.handler] finds: no
    entry under that method, an entry whose [handler] member is not a
    function, or an entry whose [handler] member is the function [h]. *)
Inductive HandlerLookup : Type :=
  | NoEntry
  | NotCallable
  | HandlerMember (h : (nat -> Z) -> string -> option JSON -> Disk -> result ToolResult * Disk).

(** The entry that the SDK keeps for a method is the function that
    [setRequestHandler] wraps around the registered handler, stored in the
    map as it is; a function has no member named [handler]. *)
Definition sdk_entry : HandlerLookup := NotCallable.

Section Transports.

Variable Date_parse : string -> option Z.
Variable toISOString : Z -> string.
Variable js_toString : JSON -> string.
Variable makeApiRequest : string -> string -> option JSON -> result JSON.
Variable render : string -> list (option JSON) -> result string.

(** A call that arrives over the RPC transport. *)
Definition rpc_call (clock : nat -> Z) (name : string) (args : option JSON)
    (d : Disk) : RpcResponse * Disk :=
  let '(outcome, d') :=
    callTool Date_parse toISOString js_toString makeApiRequest render clock name args d in
  (rpc_respond outcome, d').

(** A per-operation route, [app.post('/api/ticktick/...')], in front of
    the method [handler]. *)
Definition shortcut_route (handler : Handler) (clock : nat -> Z)
    (req_body : option JSON) (d : Disk) : HttpResponse * Disk :=
  match handler clock req_body d with
  | (Ok r, d') => ({| status := 200; body := Success None (Some r) |}, d')
  | (Throw e, d') => ({| status := 500; body := Failure None (error_message e) |}, d')
  end.

(** [app.post('/api/ticktick/execute/:toolName')] *)
Definition execute_route (entry : HandlerLookup) (clock : nat -> Z)
    (toolName : string) (req_body : option JSON) (d : Disk) : HttpResponse * Disk :=
  let '(outcome, d') :=
    match entry with
    | NoEntry => (Ok None, d)
    | NotCallable =>
        (Throw (TypeError "this.server._requestHandlers.get(...)?.handler is not a function"), d)
    | HandlerMember h =>
        let '(r, d') := h clock toolName req_body d in
        (x <- r ;; Ok (Some x), d')
    end in
  match outcome with
  | Ok data => ({| status := 200; body := Success (Some toolName) data |}, d')
  | Throw e => ({| status := 500; body := Failure (Some toolName) (error_message e) |}, d')
  end.

End Transports.

(** What a caller can tell from an answer, whatever the transport: the
    payload of a success, or the class of a failure (a status 500 is the
    internal-error class). *)
Inductive Observable : Type :=
  | Succeeded (payload : option ToolResult)
  | Failed (class : ErrorCode).

Definition observe_rpc (r : RpcResponse) : Observable :=
  match r with
  | RpcResult v => Succeeded (Some v)
  | RpcError code _ => Failed code
  end.

Definition observe_http (r : HttpResponse) : Observable :=
  match body r with
  | Success _ data => Succeeded data
  | Failure _ _ => Failed InternalError
  end.

(** ** The Genspark variant of the server

    Its cache store is the one above, line for line; its call handler is a
    mock that answers every name. *)

Module Genspark.

(** The handler registered for [CallToolRequestSchema], on the [params]
    of its request: [const { name, arguments: args } = request.params]. *)
Definition callTool (js_toString : JSON -> string) (params : option JSON) : result ToolResult :=
  name <- member_of params "name" ;;
  args <- member_of params "arguments" ;;
  catch (shown <- to_text js_toString name ;; Ok (MockResult name args))
        (fun error =>
           shown <- to_text js_toString name ;;
           Throw (McpError InternalError
                    ("Error executing tool " ++ shown ++ ": " ++ error_message error))).

(** What a request handler returns: the catalog, or a tool's result. *)
Inductive Answer : Type :=
  | Listed
  | Called (r : ToolResult).

(** The request handlers by method, each on the [params] of its request. *)
Definition Handlers : Type := string -> option (option JSON -> result Answer).

(** The handlers that [setupHandlers] registers. *)
Definition registered (js_toString : JSON -> string) : Handlers := fun method =>
  if String.eqb method "tools/list" then Some (fun _ => Ok Listed)
  else if String.eqb method "tools/call" then
    Some (fun params => r <- callTool js_toString params ;; Ok (Called r))
  else None.

(** [this.server.requestHandlers.get(method)], where [requestHandlers] is
    the member of that name of the server, [None] when the server has no
    such member. *)
Definition get_handler (requestHandlers : option Handlers) (method : string)
    : result (option (option JSON -> result Answer)) :=
  match requestHandlers with
  | Some handlers => Ok (handlers method)
  | None => Throw (TypeError "Cannot read properties of undefined (reading 'get')")
  end.

(** The server of the SDK keeps its handlers in [_requestHandlers]; it has
    no member named [requestHandlers]. *)
Definition sdk_requestHandlers : option Handlers := None.

(** [handleRequest(params)].  The request given to the call handler is
    [{ params }]: its [params] is the whole argument of [handleRequest]. *)
Definition handleRequest (js_toString : JSON -> string) (requestHandlers : option Handlers)
    (params : JSON) : result (option Answer) :=
  method <- member params "method" ;;
  if strict_eq method (Some (JStr "tools/list")) then
    entry <- get_handler requestHandlers "tools/list" ;;
    match entry with
    | Some h => r <- h (Some (JObj ∅)) ;; Ok (Some r)
    | None => Ok None
    end
  else if strict_eq method (Some (JStr "tools/call")) then
    entry <- get_handler requestHandlers "tools/call" ;;
    match entry with
    | Some h => r <- h (Some params) ;; Ok (Some r)
    | None => Ok None
    end
  else
    shown <- to_text js_toString method ;;
    Throw (Error ("Unsupported method: " ++ shown)).

(** [app.post('/mcp/call/:toolName')] *)
Definition call_route (js_toString : JSON -> string) (requestHandlers : option Handlers)
    (toolName : string) (req_body : option JSON) : HttpResponse :=
  match (args <- member_of req_body "arguments" ;;
         handleRequest js_toString requestHandlers
           (JObj (<["method" := JStr "tools/call"]>
                    {[ "params" := JObj (<["name" := JStr toolName]>
                                           {[ "arguments" := js_or args (JObj ∅) ]}) ]}))) with
  | Ok (Some (Called r)) => {| status := 200; body := Success None (Some r) |}
  | Ok _ => {| status := 200; body := Success None None |}
  | Throw e => {| status := 500; body := Failure (Some toolName) (error_message e) |}
  end.

(** The same call arriving over the RPC transport: the handler is given
    the request itself. *)
Definition rpc_call (js_toString : JSON -> string) (name : string) (args : JSON) : RpcResponse :=
  rpc_respond
    (callTool js_toString
       (Some (JObj (<["name" := JStr name]> {[ "arguments" := args ]})))).

End Genspark.

(** ** The upstream client *)

(** What [fetch] is called with. *)
Record FetchRequest : Type :=
  { fetch_url : string;
    fetch_method : string;
    fetch_headers : list (string * string);
    fetch_body : option content }.

(** What [fetch] resolves to: the members of the response that the client
    reads, and what [response.json()] resolves to. *)
Record FetchResponse : Type :=
  { response_ok : bool;
    response_status : Z;
    response_statusText : string;
    response_json : result JSON }.

Section UpstreamClient.

Variable TICKTICK_ACCESS_TOKEN : string.
Variable fetch : FetchRequest -> result FetchResponse.

(** [makeApiRequest(endpoint, method, data)]; its [catch] logs the error
    and throws it again. *)
Definition makeApiRequest (endpoint method : string) (data : option JSON) : result JSON :=
  let baseURL := "https://api.ticktick.com/open/v1" in
  let url := baseURL ++ endpoint in
  let headers := [("Authorization", "Bearer " ++ TICKTICK_ACCESS_TOKEN);
                  ("Content-Type", "application/json")] in
  catch
    (response <- fetch {| fetch_url := url;
                          fetch_method := method;
                          fetch_headers := headers;
                          fetch_body := if truthy data then JSON_stringify <$> data
                                        else None |} ;;
     if negb (response_ok response) then
       Throw (Error ("API request failed: " ++ pretty (response_status response)
                     ++ " " ++ response_statusText response))
     else response_json response)
    (fun error => Throw error).

End UpstreamClient.

(** ** Per-operation routes *)

Section Routes.

Variable Date_parse : string -> option Z.
Variable toISOString : Z -> string.
Variable js_toString : JSON -> string.
Variable upstream : string -> string -> option JSON -> result JSON.
Variable render : string -> list (option JSON) -> result string.

(** The routes [app.post('/api/ticktick/...')] in the order in which [run]
    declares them, each with the method that it calls on [req.body]. *)
Definition routes : list (string * Handler) :=
  [ ("/api/ticktick/projects", getProjects upstream render);
    ("/api/ticktick/projects/create", createProject upstream render);
    ("/api/ticktick/tasks/create",
     createTask Date_parse toISOString js_toString upstream render);
    ("/api/ticktick/tasks/update", createGenericResponse "Task updated successfully");
    ("/api/ticktick/tasks/delete", createGenericResponse "Task deleted successfully");
    ("/api/ticktick/tasks/complete", createGenericResponse "Task completed successfully");
    ("/api/ticktick/tasks/details", createGenericResponse "Task details retrieved");
    ("/api/ticktick/cache/tasks", getCachedTasks Date_parse js_toString);
    ("/api/ticktick/cache/register", registerTaskId toISOString js_toString);
    ("/api/ticktick/cache/import-csv", importFromCsv toISOString);
    ("/api/ticktick/habits", getHabits upstream render);
    ("/api/ticktick/habits/create", createGenericResponse "Habit created successfully");
    ("/api/ticktick/habits/checkin", createGenericResponse "Habit checked in successfully");
    ("/api/ticktick/focus/start", startFocusSession upstream render);
    ("/api/ticktick/focus/stats", createGenericResponse "Focus stats retrieved");
    ("/api/ticktick/tags", createGenericResponse "Tags retrieved successfully");
    ("/api/ticktick/tags/create", createGenericResponse "Tag created successfully");
    ("/api/ticktick/tags/add-to-task", createGenericResponse "Tag added to task");
    ("/api/ticktick/tasks/today", getTodayTasks toISOString upstream render);
    ("/api/ticktick/tasks/overdue", createGenericResponse "Overdue tasks retrieved");
    ("/api/ticktick/reports/productivity",
     createGenericResponse "Productivity report generated");
    ("/api/ticktick/projects/archive", createGenericResponse "Project archived successfully");
    ("/api/ticktick/projects/duplicate",
     createGenericResponse "Project duplicated successfully");
    ("/api/ticktick/calendar/events", createGenericResponse "Calendar events retrieved");
    ("/api/ticktick/calendar/create-event", createGenericResponse "Calendar event created");
    ("/api/ticktick/projects/share", createGenericResponse "Project shared successfully");
    ("/api/ticktick/tasks/add-note", createGenericResponse "Note added to task") ].

End Routes.

(** ** Vocabulary of the properties *)

(** The task table of a cache document, when the document is an object
    whose [tasks] member is an object. *)
Definition tasks_of (doc : JSON) : option (gmap string JSON) :=
  match doc with
  | JObj top =>
      match top !! "tasks" with
      | Some (JObj tasks) => Some tasks
      | _ => None
      end
  | _ => None
  end.

(** A table: a document of the shape [{ tasks: { ... }, ... }]. *)
Definition is_table (doc : JSON) : Prop := is_Some (tasks_of doc).

(** The disk can be written and holds, or loads as, the table [tasks]
    inside the document [top]. *)
Definition holds_table (d : Disk) (top tasks : gmap string JSON) : Prop :=
  writable d = true ∧ loadCache d = JObj top ∧ top !! "tasks" = Some (JObj tasks).

(** The file is absent, cannot be read, or does not parse. *)
Definition absent_or_unparsable (d : Disk) : Prop :=
  cache_file d = Missing ∨ cache_file d = Unreadable ∨ cache_file d = Holds Malformed.

(** The [cached_at] member of a record. *)
Definition cached_at_of (record : JSON) : option JSON :=
  match record with
  | JObj props => props !! "cached_at"
  | _ => None
  end.

(** The three fields of a well-formed data row: the first three
    comma-separated fields, trimmed, when none of them is empty. *)
Definition row_entry (line : string) : option (string * string * string) :=
  match row_fields line with
  | task_id :: project_id :: title :: _ =>
      if nonempty task_id && nonempty project_id && nonempty title
      then Some (task_id, project_id, title)
      else None
  | _ => None
  end.

Definition well_formed (line : string) : bool :=
  match row_entry line with
  | Some _ => true
  | None => false
  end.

(** The arguments [{ csv_data }] of an import. *)
Definition csv_args (csv_data : string) : option JSON :=
  Some (JObj {[ "csv_data" := JStr csv_data ]}).

(** The task table after the well-formed rows among [rows], met from
    line [i] on, have been written over [tasks] one after the other. *)
Fixpoint import_tasks (toISOString : Z -> string) (clock : nat -> Z) (i : nat)
    (rows : list string) (tasks : gmap string JSON) : gmap string JSON :=
  match rows with
  | [] => tasks
  | line :: rest =>
      import_tasks toISOString clock (S i) rest
        match row_entry line with
        | Some (task_id, project_id, title) =>
            assign_member tasks task_id
              (cache_record toISOString (Some (JStr project_id)) (Some (JStr title))
                 (clock i))
        | None => tasks
        end
  end.



(** The text whose lines are [lines]. *)
Definition unlines (lines : list string) : string :=
  String.concat (String newline EmptyString) lines.

(** ** Fixtures

    A platform, an upstream that is down, and a few disks, for evaluating
    the handlers on concrete requests. *)

Module Fixture.

Definition offline (endpoint method : string) (data : option JSON) : result JSON :=
  Throw (Error "API request failed: 503 Service Unavailable").

Definition render (template : string) (values : list (option JSON)) : result string :=
  Ok template.

(** 2024-03-10T12:00:00.000Z, then one second per reading. *)
Definition clock (i : nat) : Z := (1710072000000 + 1000 * Z.of_nat i)%Z.

Definition fresh_record : JSON :=
  JObj (obj_of [("project_id", Some (JStr "p1")); ("title", Some (JStr "Buy milk"));
                ("cached_at", Some (JStr "2024-03-10T09:00:00.000Z"))]).

Definition aged_record : JSON :=
  JObj (obj_of [("project_id", Some (JStr "p1")); ("title", Some (JStr "Pay rent"));
                ("cached_at", Some (JStr "2024-03-01T09:00:00.000Z"))]).

Definition empty_stamp_record : JSON :=
  JObj (obj_of [("project_id", Some (JStr "p1")); ("title", Some (JStr "Call Ann"));
                ("cached_at", Some (JStr ""))]).

Definition disk_of (doc : JSON) : Disk :=
  {| cache_file := Holds (Serialized doc); writable := true |}.

Definition no_file : Disk := {| cache_file := Missing; writable := true |}.

(** One fresh and one aged record, and a sibling key next to [tasks]. *)
Definition two_tasks : Disk :=
  disk_of (JObj (<["version" := JNum 3]>
                   {[ "tasks" := JObj (<["t-aged" := aged_record]>
                                         {[ "t-fresh" := fresh_record ]}) ]})).

Definition callTool :=
  callTool Node.Date_parse Node.toISOString Node.toString offline render.

Definition rpc_call :=
  rpc_call Node.Date_parse Node.toISOString Node.toString offline render.

Definition importFromCsv := importFromCsv Node.toISOString.




End Fixture.

(** ** Further vocabulary and fixtures *)

(** The operation that each route of [routes] serves, in the same order. *)
Definition route_operations : list string :=
  [ "ticktick_get_projects"; "ticktick_create_project"; "ticktick_create_task";
    "ticktick_update_task"; "ticktick_delete_task"; "ticktick_complete_task";
    "ticktick_get_task_details"; "ticktick_get_cached_tasks";
    "ticktick_register_task_id"; "ticktick_import_from_csv"; "ticktick_get_habits";
    "ticktick_create_habit"; "ticktick_checkin_habit"; "ticktick_start_focus_session";
    "ticktick_get_focus_stats"; "ticktick_get_tags"; "ticktick_create_tag";
    "ticktick_add_tag_to_task"; "ticktick_get_today_tasks"; "ticktick_get_overdue_tasks";
    "ticktick_get_productivity_report"; "ticktick_archive_project";
    "ticktick_duplicate_project"; "ticktick_get_calendar_events";
    "ticktick_create_calendar_event"; "ticktick_share_project"; "ticktick_add_task_note" ].

(** The HTTP answer that shows what an RPC answer shows: the result with
    status 200, or the error's message with status 500. *)
Definition http_of_rpc (r : RpcResponse) : HttpResponse :=
  match r with
  | RpcResult v => {| status := 200; body := Success None (Some v) |}
  | RpcError _ message => {| status := 500; body := Failure None message |}
  end.

(** The operations whose handlers call [addTaskToCache]. *)
Definition cache_writers : list string :=
  [ "ticktick_create_task"; "ticktick_register_task_id"; "ticktick_import_from_csv" ].

(** The operations whose handlers read a member of [args]. *)
Definition argument_readers : list string :=
  [ "ticktick_create_project"; "ticktick_create_task"; "ticktick_get_cached_tasks";
    "ticktick_register_task_id"; "ticktick_import_from_csv";
    "ticktick_start_focus_session" ].

(** The operations behind [createGenericResponse]. *)
Definition placeholders : list string :=
  [ "ticktick_update_task"; "ticktick_delete_task"; "ticktick_complete_task";
    "ticktick_get_task_details"; "ticktick_create_habit"; "ticktick_checkin_habit";
    "ticktick_get_focus_stats"; "ticktick_get_tags"; "ticktick_create_tag";
    "ticktick_add_tag_to_task"; "ticktick_archive_project"; "ticktick_duplicate_project";
    "ticktick_get_calendar_events"; "ticktick_create_calendar_event";
    "ticktick_get_productivity_report"; "ticktick_get_overdue_tasks";
    "ticktick_share_project"; "ticktick_add_task_note" ].

(** The members of an entry that the text of a listing converts do
    convert. *)
Definition shows (t : gmap string JSON) : bool :=
  converts (t !! "title") && converts (t !! "id")
  && converts (t !! "project_id") && converts (t !! "cached_at").

(** Every record of the table can be listed: none is [null], and the
    entry made of it converts. *)
Definition listable (tasks : gmap string JSON) : Prop :=
  ∀ id task, tasks !! id = Some task →
    task ≠ JNull ∧ ∀ is_stale, shows (task_view id task is_stale) = true.

Module Sample.

(** An upstream that answers a request with its body and the id [srv-1]. *)
Definition echo (endpoint method : string) (data : option JSON) : result JSON :=
  match data with
  | Some (JObj props) => Ok (JObj (<["id" := JStr "srv-1"]> props))
  | _ => Ok (JArr [])
  end.

(** A [fetch] that is answered with 404. *)
Definition not_found (request : FetchRequest) : result FetchResponse :=
  Ok {| response_ok := false; response_status := 404;
        response_statusText := "Not Found";
        response_json := Ok JNull |}.

(** A document without the [tasks] member. *)
Definition no_tasks_key : Disk := Fixture.disk_of (JObj {[ "version" := JNum 3 ]}).

(** A table one record of which is [null]. *)
Definition null_record : Disk :=
  Fixture.disk_of (JObj {[ "tasks" := JObj (<["t-null" := JNull]>
                                              {[ "t-fresh" := Fixture.fresh_record ]}) ]}).


Definition fresh_and_aged : gmap string JSON :=
  <["t-aged" := Fixture.aged_record]> {[ "t-fresh" := Fixture.fresh_record ]}.

Definition two_tasks_top : gmap string JSON :=
  <["version" := JNum 3]> {[ "tasks" := JObj fresh_and_aged ]}.

End Sample.

(** * Properties *)

(** ** Loading and saving *)

Lemma loadCache_missing d : cache_file d = Missing → loadCache d = empty_cache.
Proof. intros H. unfold loadCache, existsSync. by rewrite H. Qed.

Lemma loadCache_unreadable d : cache_file d = Unreadable → loadCache d = empty_cache.
Proof. intros H. unfold loadCache, existsSync, readFileSync. by rewrite H. Qed.

Lemma loadCache_malformed d : cache_file d = Holds Malformed → loadCache d = empty_cache.
Proof. intros H. unfold loadCache, existsSync, readFileSync. by rewrite H. Qed.

Lemma loadCache_serialized d v : cache_file d = Holds (Serialized v) → loadCache d = v.
Proof. intros H. unfold loadCache, existsSync, readFileSync. by rewrite H. Qed.

Lemma tasks_of_empty_cache : tasks_of empty_cache = Some ∅.
Proof. reflexivity. Qed.

Lemma is_table_empty_cache : is_table empty_cache.
Proof. by exists ∅. Qed.

Lemma tasks_of_inv doc tasks :
  tasks_of doc = Some tasks →
  ∃ top, doc = JObj top ∧ top !! "tasks" = Some (JObj tasks).
Proof.
  destruct doc as [| | | | |top]; simpl; try discriminate.
  destruct (top !! "tasks") as [[| | | | |t]|] eqn:E; try discriminate.
  intros [= <-]. by exists top.
Qed.

Lemma saveCache_writable doc d :
  writable d = true →
  saveCache doc d = {| cache_file := Holds (Serialized doc); writable := true |}.
Proof. intros H. unfold saveCache, writeFileSync. by rewrite H. Qed.

Lemma saveCache_read_only doc d : writable d = false → saveCache doc d = d.
Proof. intros H. unfold saveCache, writeFileSync. by rewrite H. Qed.

(** What is saved is what the next load returns. *)
Lemma load_after_save doc d : writable d = true → loadCache (saveCache doc d) = doc.
Proof. intros H. by rewrite saveCache_writable. Qed.

(** C8, as stated, fails: a file whose text parses to something that is
    not a table (here the text [null]) is returned as it is. *)
Lemma load_returns_what_parses :
  ¬ (∀ d : Disk, is_table (loadCache d)).
Proof.
  intros H.
  destruct (H {| cache_file := Holds (Serialized JNull); writable := true |}) as [t Ht].
  discriminate Ht.
Qed.

(** C8 (amended): [loadCache] never fails.  It returns exactly the empty
    table [{tasks: {}}] when the file is absent, unreadable or unparsable,
    and otherwise the parsed document unchanged, whatever its shape; the
    empty table is a table. *)
Theorem loadCache_total :
  ∀ d : Disk,
    ((absent_or_unparsable d ∧ loadCache d = empty_cache)
     ∨ (∃ doc, cache_file d = Holds (Serialized doc) ∧ loadCache d = doc))
    ∧ is_table empty_cache.
Proof.
  intros d. split; [|apply is_table_empty_cache].
  destruct (cache_file d) as [| |[|doc]] eqn:E.
  - left. split; [by left|by apply loadCache_missing].
  - left. split; [by right; left|by apply loadCache_unreadable].
  - left. split; [by right; right|by apply loadCache_malformed].
  - right. exists doc. split; [done|by apply loadCache_serialized].
Qed.

(** ** Registering a task *)


(** An assignment reaches no other key. *)
Lemma assign_member_ne (records : gmap string JSON) k k' v :
  k' ≠ k → assign_member records k v !! k' = records !! k'.
Proof.
  intros Hne. unfold assign_member.
  destruct (_ && _); [done|]. by rewrite lookup_insert_ne.
Qed.


(** Under [__proto__] it makes none. *)
Lemma assign_member_proto (records : gmap string JSON) v :
  records !! "__proto__" = None → assign_member records "__proto__" v = records.
Proof.
  intros Hnone. unfold assign_member. simpl.
  rewrite bool_decide_eq_false_2; [done|]. rewrite Hnone. by intros [x Hx].
Qed.


(** The keys after an assignment: those before, and the key assigned
    unless it is [__proto__]. *)
Lemma assign_member_dom (records : gmap string JSON) k v id :
  is_Some (assign_member records k v !! id)
  ↔ is_Some (records !! id) ∨ (id = k ∧ k ≠ "__proto__").
Proof.
  unfold assign_member.
  destruct (String.eqb_spec k "__proto__") as [->|Hk]; simpl.
  - destruct (bool_decide (is_Some (records !! "__proto__"))) eqn:Hown; simpl.
    + apply bool_decide_eq_true in Hown.
      destruct (decide (id = "__proto__")) as [->|Hne].
      * rewrite lookup_insert_eq. split; [by left|by eexists].
      * rewrite lookup_insert_ne by done. split; [by left|]. by intros [H|[_ H]].
    + split; [by left|]. by intros [H|[_ H]].
  - destruct (decide (id = k)) as [->|Hne].
    + rewrite lookup_insert_eq. split; [by right|by eexists].
    + rewrite lookup_insert_ne by done. split; [by left|]. by intros [H|[H _]].
Qed.

(** An assignment makes at most one member, and removes none. *)
Lemma assign_member_size (records : gmap string JSON) k v :
  (size records ≤ size (assign_member records k v) ≤ S (size records))%nat.
Proof.
  unfold assign_member. destruct (_ && _); [lia|].
  pose proof (map_size_insert k v records) as Hsize.
  destruct (records !! k); simpl in Hsize; lia.
Qed.

(** Assignments under two different keys commute. *)
Lemma assign_member_comm (records : gmap string JSON) k1 k2 v1 v2 :
  k1 ≠ k2 →
  assign_member (assign_member records k2 v2) k1 v1
  = assign_member (assign_member records k1 v1) k2 v2.
Proof.
  intros Hne. unfold assign_member.
  destruct (String.eqb_spec k1 "__proto__") as [->|H1],
           (String.eqb_spec k2 "__proto__") as [->|H2]; simpl;
    [done| | |by apply insert_insert_ne].
  - rewrite lookup_insert_ne by done.
    destruct (bool_decide _); simpl; [by apply insert_insert_ne|done].
  - rewrite lookup_insert_ne by done.
    destruct (bool_decide _); simpl; [by apply insert_insert_ne|done].
Qed.

Section Put.

Variable toISOString : Z → string.

Abbreviation put := (addTaskToCache toISOString).
Abbreviation record := (cache_record toISOString).

Lemma assign_task_table top tasks taskId r :
  top !! "tasks" = Some (JObj tasks) →
  assign_task (JObj top) taskId r
  = Ok (JObj (<["tasks" := JObj (assign_member tasks taskId r)]> top)).
Proof. intros H. unfold assign_task. simpl. by rewrite H. Qed.

(** On a writable disk that loads as a table, a put saves the document
    with the one record inserted. *)
Lemma put_table now taskId projectId title d top tasks :
  holds_table d top tasks →
  put now taskId projectId title d
  = {| cache_file :=
         Holds (Serialized
                  (JObj (<["tasks" := JObj (assign_member tasks taskId
                                              (record projectId title now))]> top)));
       writable := true |}.
Proof.
  intros (Hw & Hload & Htasks). unfold addTaskToCache.
  rewrite Hload, (assign_task_table _ _ _ _ Htasks).
  by apply saveCache_writable.
Qed.

Lemma put_holds_table now taskId projectId title d top tasks :
  holds_table d top tasks →
  holds_table (put now taskId projectId title d)
    (<["tasks" := JObj (assign_member tasks taskId (record projectId title now))]> top)
    (assign_member tasks taskId (record projectId title now)).
Proof.
  intros H. rewrite (put_table _ _ _ _ _ _ _ H).
  split; [done|]. split; [done|]. by rewrite lookup_insert_eq.
Qed.

Lemma put_read_only now taskId projectId title d :
  writable d = false → put now taskId projectId title d = d.
Proof.
  intros H. unfold addTaskToCache.
  destruct (assign_task _ _ _); [by apply saveCache_read_only|done].
Qed.




Lemma assign_task_object top taskId r cache' :
  assign_task (JObj top) taskId r = Ok cache' →
  ∃ tasks', cache' = JObj (<["tasks" := tasks']> top).
Proof.
  unfold assign_task. simpl.
  destruct (top !! "tasks") as [[| | | |xs|records]|]; simpl; try done.
  - destruct (array_assign xs taskId r) as [xs'|]; simpl; [|done].
    intros [= <-]. by eexists.
  - intros [= <-]. by eexists.
Qed.

(** C9: when the loaded document is an object, the document loaded after
    a put is an object whose top-level keys other than [tasks] have the
    values they had; and when its [tasks] member is an object (the
    document is a cache document), [tasks] is again an object in which every
    record under another task id is the one it was.  This holds whether or
    not the write succeeds. *)
Theorem put_frame
    (now : Z) (taskId : string) (projectId title : option JSON)
    (d : Disk) (top : gmap string JSON) :
  loadCache d = JObj top →
  ∃ top',
    loadCache (put now taskId projectId title d) = JObj top'
    ∧ (∀ k, k ≠ "tasks" → top' !! k = top !! k)
    ∧ (∀ tasks, top !! "tasks" = Some (JObj tasks) →
         ∃ tasks', top' !! "tasks" = Some (JObj tasks')
                   ∧ ∀ other, other ≠ taskId → tasks' !! other = tasks !! other).
Proof.
  intros Hload.
  assert (∃ top', loadCache d = JObj top'
                  ∧ (∀ k, k ≠ "tasks" → top' !! k = top !! k)
                  ∧ (∀ tasks, top !! "tasks" = Some (JObj tasks) →
                       ∃ tasks', top' !! "tasks" = Some (JObj tasks')
                                 ∧ ∀ other, other ≠ taskId →
                                            tasks' !! other = tasks !! other))
    as Hsame.
  { exists top. split; [done|]. split; [done|]. intros tasks Ht. by exists tasks. }
  destruct (writable d) eqn:Hw; [|by rewrite put_read_only].
  unfold addTaskToCache. rewrite Hload.
  destruct (assign_task (JObj top) taskId (record projectId title now))
    as [cache'|] eqn:Hassign; [|done].
  rewrite load_after_save by done.
  destruct (assign_task_object _ _ _ _ Hassign) as [tasks' ->].
  eexists. split; [reflexivity|]. split.
  - intros k Hk. by rewrite lookup_insert_ne.
  - intros tasks Ht. rewrite (assign_task_table _ _ _ _ Ht) in Hassign.
    injection Hassign as Heq.
    apply (f_equal (lookup "tasks")) in Heq. rewrite !lookup_insert_eq in Heq.
    injection Heq as <-.
    eexists. split; [by rewrite lookup_insert_eq|].
    intros other Ho. by apply assign_member_ne.
Qed.

End Put.



Lemma put_frame_witness :
  let top : gmap string JSON :=
    <["version" := JNum 3]>
      {[ "tasks" := JObj (<["t-aged" := Fixture.aged_record]>
                            {[ "t-fresh" := Fixture.fresh_record ]}) ]} in
  loadCache Fixture.two_tasks = JObj top
  ∧ ∃ top',
      loadCache (addTaskToCache Node.toISOString 1710072000000 "t-new"
                   (Some (JStr "p2")) (Some (JStr "Water plants")) Fixture.two_tasks)
      = JObj top'
      ∧ (∀ k, k ≠ "tasks" → top' !! k = top !! k)
      ∧ (∀ tasks, top !! "tasks" = Some (JObj tasks) →
           ∃ tasks', top' !! "tasks" = Some (JObj tasks')
                     ∧ ∀ other, other ≠ "t-new" → tasks' !! other = tasks !! other).
Proof.
  intros top. split; [reflexivity|].
  apply (put_frame Node.toISOString 1710072000000 "t-new" (Some (JStr "p2"))
           (Some (JStr "Water plants")) Fixture.two_tasks top).
  reflexivity.
Defined.

(** ** Staleness *)

Section Staleness.

Variable Date_parse : string → option Z.
Variable js_toString : JSON → string.

Abbreviation stale := (isTaskStale Date_parse js_toString).
Abbreviation time_of := (date_value Date_parse js_toString).

Lemma isTaskStale_record now props :
  stale now (JObj props)
  = (if truthy (props !! "cached_at")
     then t <- time_of (props !! "cached_at") ;;
          Ok match t with
             | Some t => (CACHE_TTL <? now - t)%Z
             | None => false
             end
     else Ok true).
Proof. unfold isTaskStale. simpl. by destruct (truthy _). Qed.

(** [new Date(v)] throws exactly on the values that do not convert. *)
Lemma date_value_converts v :
  if converts v then ∃ t, time_of v = Ok t else time_of v = Throw cannot_convert.
Proof.
  unfold converts, date_value.
  destruct v as [[| | | |xs|props]|]; try (by eexists).
  - by destruct (convertible (JArr xs)); [eexists|].
  - by destruct (convertible (JObj props)); [eexists|].
Qed.

(** C5 (amended): a record is reported stale if and only if its
    [cached_at] is missing or falsy (null, false, 0 or the empty string),
    or denotes a time more than the 24-hour TTL before now.  The report is
    a boolean whenever [cached_at] converts to a primitive, and an error
    otherwise.  A record whose non-empty [cached_at] denotes
    now - TTL - 1 second is stale, one whose [cached_at] denotes
    now - TTL + 1 second is fresh. *)
Theorem isTaskStale_iff (now : Z) (props : gmap string JSON) :
  let cached_at := props !! "cached_at" in
  (stale now (JObj props) = Ok true
   ↔ truthy cached_at = false
     ∨ ∃ t, time_of cached_at = Ok (Some t) ∧ (CACHE_TTL < now - t)%Z)
  ∧ (converts cached_at = true →
     stale now (JObj props) = Ok true ∨ stale now (JObj props) = Ok false)
  ∧ (converts cached_at = false → ∃ e, stale now (JObj props) = Throw e)
  ∧ (time_of cached_at = Ok (Some (now - CACHE_TTL - 1000)%Z) →
     stale now (JObj props) = Ok true)
  ∧ (truthy cached_at = true →
     time_of cached_at = Ok (Some (now - CACHE_TTL + 1000)%Z) →
     stale now (JObj props) = Ok false).
Proof.
  intros cached_at. rewrite isTaskStale_record. fold cached_at.
  pose proof (date_value_converts cached_at) as Hconverts.
  split; [|split; [|split; [|split]]].
  - destruct (truthy cached_at) eqn:Htruthy.
    + destruct (time_of cached_at) as [[t|]|e] eqn:Ht; simpl.
      * split.
        -- intros [= H%Z.ltb_lt]. right. by exists t.
        -- intros [H|(t' & [= <-] & H)]; [done|].
           f_equal. by apply Z.ltb_lt.
      * split; [done|]. by intros [H|(t' & H & _)].
      * split; [done|]. by intros [H|(t' & H & _)].
    + split; [by left|done].
  - intros Hc. rewrite Hc in Hconverts. destruct Hconverts as [t ->].
    destruct (truthy cached_at); [|by left]. simpl.
    destruct t as [t|]; [|by right].
    destruct (CACHE_TTL <? now - t)%Z; [by left|by right].
  - intros Hc. rewrite Hc in Hconverts. rewrite Hconverts.
    assert (truthy cached_at = true) as ->; [|by eexists].
    by destruct cached_at as [[| | | | |]|].
  - intros Ht. rewrite Ht.
    destruct (truthy cached_at); [|done]. simpl.
    f_equal. apply Z.ltb_lt. lia.
  - intros Htruthy Ht. rewrite Htruthy, Ht. simpl.
    f_equal. apply Z.ltb_ge. lia.
Qed.

(** C10 (amended): a record whose [cached_at] is present, is not empty
    (nor otherwise falsy), converts to a primitive and does not denote a
    time is reported fresh, whatever the time is; the same record without
    its [cached_at] is reported stale. *)
Theorem unparsable_stamp_is_fresh (now : Z) (props : gmap string JSON) (v : JSON) :
  props !! "cached_at" = Some v →
  truthy (Some v) = true →
  time_of (Some v) = Ok None →
  stale now (JObj props) = Ok false
  ∧ stale now (JObj (delete "cached_at" props)) = Ok true.
Proof.
  intros Hv Htruthy Htime. rewrite !isTaskStale_record.
  rewrite lookup_delete_eq, Hv, Htruthy, Htime. done.
Qed.

End Staleness.

(** C5, as stated, fails on a record whose [cached_at] is the empty
    string: the field is not missing and denotes no time, so nothing
    exceeds the TTL, and the record is reported stale all the same. *)
Lemma empty_stamp_breaks_iff :
  ¬ (isTaskStale Node.Date_parse Node.toString 1710072000000 Fixture.empty_stamp_record
     = Ok true
     ↔ cached_at_of Fixture.empty_stamp_record = None
       ∨ ∃ t, date_value Node.Date_parse Node.toString
                (cached_at_of Fixture.empty_stamp_record) = Ok (Some t)
              ∧ (CACHE_TTL < 1710072000000 - t)%Z).
Proof.
  intros [Hstale _].
  destruct (Hstale eq_refl) as [Hmissing|(t & Ht & _)]; discriminate.
Qed.

(** C10, as stated, fails on the same kind of record: its [cached_at] is
    present and is not a parsable timestamp, and it is reported stale. *)
Lemma empty_stamp_is_stale :
  ¬ (∀ (now : Z) (record v : JSON),
       cached_at_of record = Some v →
       date_value Node.Date_parse Node.toString (Some v) = Ok None →
       isTaskStale Node.Date_parse Node.toString now record = Ok false).
Proof.
  intros H.
  specialize (H 1710072000000%Z Fixture.empty_stamp_record (JStr "") eq_refl eq_refl).
  discriminate H.
Qed.

(** A [cached_at] that does not convert makes the report an error: here
    an object with a member [toString] of its own. *)
Lemma unconvertible_stamp_throws :
  isTaskStale Node.Date_parse Node.toString 1710072000000
    (JObj {[ "cached_at" := JObj {[ "toString" := JNum 1 ]} ]})
  = Throw cannot_convert.
Proof. reflexivity. Qed.

Lemma isTaskStale_iff_witness :
  let now := 1710072000000%Z in
  let at_edge (stamp : string) : gmap string JSON := {[ "cached_at" := JStr stamp ]} in
  (date_value Node.Date_parse Node.toString (at_edge "2024-03-09T11:59:59.000Z" !! "cached_at")
   = Ok (Some (now - CACHE_TTL - 1000)%Z)
   ∧ isTaskStale Node.Date_parse Node.toString now (JObj (at_edge "2024-03-09T11:59:59.000Z"))
     = Ok true)
  ∧ (truthy (at_edge "2024-03-09T12:00:01.000Z" !! "cached_at") = true
     ∧ date_value Node.Date_parse Node.toString (at_edge "2024-03-09T12:00:01.000Z" !! "cached_at")
       = Ok (Some (now - CACHE_TTL + 1000)%Z)
     ∧ isTaskStale Node.Date_parse Node.toString now (JObj (at_edge "2024-03-09T12:00:01.000Z"))
       = Ok false).
Proof.
  intros now at_edge. split.
  - split; [reflexivity|].
    exact (proj1 (proj2 (proj2 (proj2
             (isTaskStale_iff Node.Date_parse Node.toString now
                (at_edge "2024-03-09T11:59:59.000Z"))))) eq_refl).
  - split; [reflexivity|]. split; [reflexivity|].
    exact (proj2 (proj2 (proj2 (proj2
             (isTaskStale_iff Node.Date_parse Node.toString now
                (at_edge "2024-03-09T12:00:01.000Z"))))) eq_refl eq_refl).
Defined.

Lemma unparsable_stamp_is_fresh_witness :
  let props : gmap string JSON :=
    <["cached_at" := JStr "yesterday-ish"]> {[ "title" := JStr "Buy milk" ]} in
  props !! "cached_at" = Some (JStr "yesterday-ish")
  ∧ truthy (Some (JStr "yesterday-ish")) = true
  ∧ date_value Node.Date_parse Node.toString (Some (JStr "yesterday-ish")) = Ok None
  ∧ isTaskStale Node.Date_parse Node.toString 1710072000000 (JObj props) = Ok false
  ∧ isTaskStale Node.Date_parse Node.toString 1710072000000
      (JObj (delete "cached_at" props)) = Ok true.
Proof.
  intros props. split; [reflexivity|]. split; [reflexivity|]. split; [reflexivity|].
  apply (unparsable_stamp_is_fresh Node.Date_parse Node.toString 1710072000000 props
           (JStr "yesterday-ish")); reflexivity.
Defined.

(** ** Bulk import *)

Section BulkImport.

Variable toISOString : Z → string.

Abbreviation put := (addTaskToCache toISOString).
Abbreviation record := (cache_record toISOString).
Abbreviation row_record :=
  (fun (project_id title : string) (now : Z) =>
     cache_record toISOString (Some (JStr project_id)) (Some (JStr title)) now).

Lemma import_rows_cons clock i line rest imported d :
  import_rows toISOString clock i (line :: rest) imported d
  = match row_entry line with
    | Some (task_id, project_id, title) =>
        import_rows toISOString clock (S i) rest (S imported)
          (put (clock i) task_id (Some (JStr project_id)) (Some (JStr title)) d)
    | None => import_rows toISOString clock (S i) rest imported d
    end.
Proof.
  simpl. unfold row_entry.
  destruct (row_fields line) as [|a [|b [|c more]]]; try done.
  by destruct (nonempty a && nonempty b && nonempty c).
Qed.

(** The loop counts the well-formed rows and leaves the table that
    [import_tasks] describes; a malformed row changes neither. *)
Lemma import_rows_table clock rows :
  ∀ i imported d top tasks,
    holds_table d top tasks →
    ∃ d',
      import_rows toISOString clock i rows imported d
      = ((imported + length (List.filter well_formed rows))%nat, d')
      ∧ holds_table d'
          (<["tasks" := JObj (import_tasks toISOString clock i rows tasks)]> top)
          (import_tasks toISOString clock i rows tasks).
Proof.
  induction rows as [|line rest IH]; intros i imported d top tasks Hd.
  - exists d. simpl. split; [f_equal; lia|].
    destruct Hd as (Hw & Hload & Htasks).
    rewrite (insert_id top "tasks" (JObj tasks)) by done. done.
  - rewrite import_rows_cons. simpl.
    assert (well_formed line = bool_decide (is_Some (row_entry line))) as ->.
    { unfold well_formed. by destruct (row_entry line). }
    destruct (row_entry line) as [[[a b] c]|] eqn:Hentry.
    + pose proof (put_holds_table toISOString (clock i) a (Some (JStr b))
                    (Some (JStr c)) d top tasks Hd) as H1.
      destruct (IH (S i) (S imported) _ _ _ H1) as (d' & Hrun & Hd').
      exists d'. split.
      * rewrite Hrun. f_equal. simpl. lia.
      * by rewrite insert_insert_eq in Hd'.
    + destruct (IH (S i) imported d top tasks Hd) as (d' & Hrun & Hd').
      exists d'. split; [|done]. by rewrite Hrun.
Qed.


(** The ids of the table after the loop: those it had, and those of the
    well-formed rows other than [__proto__]. *)
Lemma import_tasks_dom clock rows id :
  ∀ i tasks,
    is_Some (import_tasks toISOString clock i rows tasks !! id)
    ↔ is_Some (tasks !! id)
      ∨ (id ≠ "__proto__"
         ∧ ∃ line project_id title,
             line ∈ rows ∧ row_entry line = Some (id, project_id, title)).
Proof.
  induction rows as [|line rest IH]; intros i tasks.
  - simpl. split; [by left|]. intros [H|(_ & line & b & c & Hin & _)]; [done|].
    by apply elem_of_nil in Hin.
  - simpl. rewrite IH. split.
    + intros [Hhere|(Hid & line' & b & c & Hin & Hentry)].
      * destruct (row_entry line) as [[[a b] c]|] eqn:Hentry; [|by left].
        apply assign_member_dom in Hhere as [Hold|[-> Hid]]; [by left|].
        right. split; [done|]. exists line, b, c. split; [by left|done].
      * right. split; [done|]. exists line', b, c. split; [by right|done].
    + intros [Hold|(Hid & line' & b & c & Hin & Hentry)].
      * left. destruct (row_entry line) as [[[a b] c]|]; [|done].
        apply assign_member_dom. by left.
      * apply elem_of_cons in Hin as [->|Hin].
        -- left. rewrite Hentry. apply assign_member_dom. by right.
        -- right. split; [done|]. by exists line', b, c.
Qed.


Lemma importFromCsv_rows clock args csv_data header rows d :
  member_of args "csv_data" = Ok (Some (JStr csv_data)) →
  csv_lines csv_data = header :: rows →
  valid_header header = true →
  importFromCsv toISOString clock args d
  = (let '(imported, d') := import_rows toISOString clock 1 rows 0 d in
     (Ok (CsvImported imported), d')).
Proof.
  intros Hargs Hlines Hheader. unfold importFromCsv.
  rewrite Hargs. simpl. rewrite Hlines, Hheader. done.
Qed.




End BulkImport.





(** ** The dispatcher *)

Section Dispatcher.

Variable Date_parse : string → option Z.
Variable toISOString : Z → string.
Variable js_toString : JSON → string.
Variable makeApiRequest : string → string → option JSON → result JSON.
Variable render : string → list (option JSON) → result string.

Abbreviation the_cases :=
  (cases Date_parse toISOString js_toString makeApiRequest render).
Abbreviation the_switch :=
  (switch Date_parse toISOString js_toString makeApiRequest render).
Abbreviation call :=
  (callTool Date_parse toISOString js_toString makeApiRequest render).
Abbreviation rpc :=
  (rpc_call Date_parse toISOString js_toString makeApiRequest render).

(** The names that the catalog advertises are the labels of the switch,
    in the same order. *)
Lemma labels_are_catalog : map fst the_cases = map tool_name tools.
Proof. reflexivity. Qed.

Lemma catalog_names_distinct : NoDup (map tool_name tools).
Proof. compute_done. Qed.

Lemma switch_unregistered name :
  name ∉ map tool_name tools → the_switch name = None.
Proof.
  intros Hname. unfold switch.
  destruct (List.find _ _) as [c|] eqn:Hfind; [|done].
  apply List.find_some in Hfind as [Hin Heq].
  apply String.eqb_eq in Heq. exfalso. apply Hname.
  rewrite <- labels_are_catalog, Heq.
  apply list_elem_of_fmap. exists c. split; [done|]. by apply list_elem_of_In.
Qed.

Lemma switch_registered name :
  name ∈ map tool_name tools → is_Some (the_switch name).
Proof.
  rewrite <- labels_are_catalog. intros (c & -> & Hin)%list_elem_of_fmap.
  unfold switch.
  destruct (List.find _ _) as [c'|] eqn:Hfind; [by eexists|].
  apply list_elem_of_In in Hin.
  pose proof (List.find_none _ _ Hfind c Hin) as Hfalse. simpl in Hfalse.
  by rewrite String.eqb_refl in Hfalse.
Qed.

(** C2 on the code: a name outside the registry reaches the [default]
    branch, which throws [MethodNotFound]; the enclosing [catch] throws it
    again as [InternalError].  The RPC caller gets the internal-error code,
    and the HTTP route in front of the same handler answers 500. *)
Theorem unknown_tool_is_internal_error
    (clock : nat → Z) (name : string) (args : option JSON) (d : Disk) :
  name ∉ map tool_name tools →
  rpc clock name args d = (RpcError InternalError ("Unknown tool: " ++ name), d)
  ∧ execute_route (HandlerMember call) clock name args d
    = ({| status := 500; body := Failure (Some name) ("Unknown tool: " ++ name) |}, d).
Proof.
  intros Hname.
  unfold rpc_call, execute_route, callTool.
  by rewrite (switch_unregistered name Hname).
Qed.

(** When the route does find the registered handler, both transports
    show the caller the same outcome and leave the same cache. *)
Lemma execute_route_through_handler clock name args d :
  observe_http (fst (execute_route (HandlerMember call) clock name args d))
  = observe_rpc (fst (rpc clock name args d))
  ∧ snd (execute_route (HandlerMember call) clock name args d)
    = snd (rpc clock name args d).
Proof.
  unfold execute_route, rpc_call, callTool.
  destruct (the_switch name) as [handler|].
  - destruct (handler clock args d) as [[r|e] d']; simpl; [done|].
    by destruct e.
  - done.
Qed.

(** Through the entry that the SDK keeps, the route never reaches the
    handler: it answers 500 to every request and leaves the cache alone. *)
Lemma execute_route_sdk_entry clock name args d :
  execute_route sdk_entry clock name args d
  = ({| status := 500;
        body := Failure (Some name)
                  "this.server._requestHandlers.get(...)?.handler is not a function" |},
     d).
Proof. reflexivity. Qed.

(** C4 on the code: [ticktick_get_tags] is registered and succeeds over
    RPC, whatever its arguments.  Unless the entry that the route looks up
    has a member [handler] that is a function, the same name and arguments
    sent to the execute-by-name route are not answered as over RPC: the
    route answers without the payload, or with status 500. *)
Theorem execute_route_differs_from_rpc
    (entry : HandlerLookup) (clock : nat → Z) (args : option JSON) (d : Disk) :
  (∀ h, entry ≠ HandlerMember h) →
  "ticktick_get_tags" ∈ map tool_name tools
  ∧ observe_rpc (fst (rpc clock "ticktick_get_tags" args d))
    = Succeeded (Some (GenericResponse "Tags retrieved successfully"))
  ∧ observe_http (fst (execute_route entry clock "ticktick_get_tags" args d))
    ≠ observe_rpc (fst (rpc clock "ticktick_get_tags" args d)).
Proof.
  intros Hentry. split; [compute_done|]. split; [done|].
  destruct entry as [| |h]; [done|done|].
  by destruct (Hentry h).
Qed.

(** A handler that applies a declared default itself: [createProject]
    without [color] sends what it sends with the declared default. *)
Lemma createProject_default_color clock props d :
  props !! "color" = None →
  createProject makeApiRequest render clock (Some (JObj props)) d
  = createProject makeApiRequest render clock
      (Some (JObj (<["color" := JStr "#3498db"]> props))) d.
Proof.
  intros Hcolor. unfold createProject. simpl.
  rewrite Hcolor, lookup_insert_eq, lookup_insert_ne by done. done.
Qed.

(** So does [startFocusSession] for [duration]. *)
Lemma startFocusSession_default_duration clock props d :
  props !! "duration" = None →
  startFocusSession makeApiRequest render clock (Some (JObj props)) d
  = startFocusSession makeApiRequest render clock
      (Some (JObj (<["duration" := JNum 25]> props))) d.
Proof.
  intros Hduration. unfold startFocusSession. simpl.
  rewrite Hduration, lookup_insert_eq, lookup_insert_ne by done. done.
Qed.

(** And [createTask] for [priority]. *)
Lemma createTask_default_priority clock props d :
  props !! "priority" = None →
  createTask Date_parse toISOString js_toString makeApiRequest render clock
    (Some (JObj props)) d
  = createTask Date_parse toISOString js_toString makeApiRequest render clock
      (Some (JObj (<["priority" := JNum 0]> props))) d.
Proof.
  intros Hpriority. unfold createTask, taskData. simpl.
  rewrite Hpriority, lookup_insert_eq, !lookup_insert_ne by done. done.
Qed.

Lemma call_registered clock name handler args d :
  the_switch name = Some handler →
  call clock name args d
  = (let '(outcome, d') := handler clock args d in
     (catch outcome (fun error => Throw (McpError InternalError (error_message error))),
      d')).
Proof. intros Hswitch. unfold callTool. by rewrite Hswitch. Qed.

(** Every operation of the catalog but [ticktick_get_cached_tasks] answers
    a call whose arguments leave out properties with declared defaults as it
    answers the call with those defaults filled in: its handler ignores the
    property, or falls back to the declared value itself. *)
Lemma declared_defaults_hold_elsewhere :
  Forall (fun t =>
            tool_name t ≠ "ticktick_get_cached_tasks" →
            ∀ clock props d,
              call clock (tool_name t) (Some (JObj props)) d
              = call clock (tool_name t) (spec_fill_defaults t (Some (JObj props))) d)
         tools.
Proof.
  unfold tools.
  repeat (apply Forall_cons; split; [intros Hname clock props d|]);
    [..|apply Forall_nil]; try reflexivity.
  - unfold spec_fill_defaults, tool_name, tool, properties, prop_default_to, prop,
      prop_default, prop_name, foldr.
    destruct (props !! "color") eqn:Hcolor; [done|].
    rewrite !(call_registered _ _ (createProject makeApiRequest render)) by reflexivity.
    by rewrite (createProject_default_color _ _ _ Hcolor).
  - unfold spec_fill_defaults, tool_name, tool, properties, prop_default_to, prop,
      prop_default, prop_name, foldr.
    destruct (props !! "priority") eqn:Hpriority; [done|].
    rewrite !(call_registered _ _
                (createTask Date_parse toISOString js_toString makeApiRequest render))
      by reflexivity.
    by rewrite (createTask_default_priority _ _ _ Hpriority).
  - done.
  - unfold spec_fill_defaults, tool_name, tool, properties, prop_default_to, prop,
      prop_default, prop_name, foldr.
    destruct (props !! "duration") eqn:Hduration; [done|].
    rewrite !(call_registered _ _ (startFocusSession makeApiRequest render))
      by reflexivity.
    by rewrite (startFocusSession_default_duration _ _ _ Hduration).
Qed.

Lemma defaults_hold_for_registered name t clock props d :
  lookup_tool name = Some t →
  name ≠ "ticktick_get_cached_tasks" →
  call clock name (Some (JObj props)) d
  = call clock name (spec_fill_defaults t (Some (JObj props))) d.
Proof.
  intros Hfind Hname. unfold lookup_tool in Hfind.
  apply List.find_some in Hfind as [Hin ->%String.eqb_eq].
  pose proof declared_defaults_hold_elsewhere as Hall.
  rewrite Forall_forall in Hall.
  apply Hall; [by apply list_elem_of_In|done].
Qed.

Lemma mapM_Forall {A B} (f : A → result B) (P : B → Prop) l ys :
  (∀ x y, f x = Ok y → P y) → mapM f l = Ok ys → Forall P ys.
Proof.
  intros Hf. revert ys. induction l as [|x l IH]; intros ys; simpl.
  - intros [= <-]. constructor.
  - destruct (f x) as [y|] eqn:Hy; simpl; [|done].
    destruct (mapM f l) as [ys'|]; simpl; [|done].
    intros [= <-]. constructor; eauto.
Qed.

(** [getCachedTasks] does not: without [include_stale] it lists no stale
    record, whatever the cache holds. *)
Lemma getCachedTasks_without_include_stale clock args d tasks :
  member_of args "include_stale" = Ok None →
  fst (getCachedTasks Date_parse js_toString clock args d) = Ok (CachedTasks tasks) →
  Forall (fun t : gmap string JSON => t !! "is_stale" = Some (JBool false)) tasks.
Proof.
  intros Hinclude. unfold getCachedTasks. simpl.
  destruct (member (loadCache d) "tasks") as [entries|]; simpl; [|done].
  destruct (mapM _ _) as [views|] eqn:Hviews; simpl; [|done].
  destruct (member_of args "project_id") as [project_id|]; simpl; [|done].
  rewrite Hinclude. simpl.
  destruct (mapM (entry_text _ _) _) as [texts|]; simpl; [|done].
  intros [= <-].
  assert (Forall (fun t : gmap string JSON => ∃ b, t !! "is_stale" = Some (JBool b)) views)
    as Hflag.
  { eapply mapM_Forall; [|exact Hviews].
    intros [id task] view. simpl.
    destruct (isTaskStale _ _ _ _) as [b|]; simpl; [|done].
    intros [= <-]. exists b. unfold task_view. by rewrite lookup_insert_eq. }
  apply Forall_forall. intros t Ht.
  assert (t ∈ views ∧ negb (truthy (t !! "is_stale")) = true) as [Hin Hfresh].
  { destruct (truthy project_id).
    - apply list_elem_of_In, List.filter_In in Ht as [Ht Hfresh].
      apply List.filter_In in Ht as [Ht _]. by apply list_elem_of_In in Ht.
    - apply list_elem_of_In, List.filter_In in Ht as [Ht Hfresh].
      by apply list_elem_of_In in Ht. }
  rewrite Forall_forall in Hflag. destruct (Hflag t Hin) as [b Hb].
  rewrite Hb in Hfresh |- *. simpl in Hfresh. by destruct b.
Qed.

End Dispatcher.

(** C1 on the code: the catalog declares [include_stale] with default
    [true]; called with no [include_stale], [ticktick_get_cached_tasks]
    lists only the fresh record of a cache that holds a fresh and an aged
    one, while with the declared default filled in it lists both. *)
Theorem get_cached_tasks_ignores_declared_default :
  let listing := Fixture.callTool Fixture.clock "ticktick_get_cached_tasks" in
  let spec := tool "ticktick_get_cached_tasks"
                [prop "project_id" TString;
                 prop_default_to "include_stale" TBoolean (JBool true)] [] in
  lookup_tool "ticktick_get_cached_tasks" = Some spec
  ∧ spec_fill_defaults spec (Some (JObj ∅))
    = Some (JObj {[ "include_stale" := JBool true ]})
  ∧ fst (listing (Some (JObj ∅)) Fixture.two_tasks)
    = Ok (CachedTasks [task_view "t-fresh" Fixture.fresh_record false])
  ∧ ∃ both,
      fst (listing (spec_fill_defaults spec (Some (JObj ∅))) Fixture.two_tasks)
      = Ok (CachedTasks both)
      ∧ both ≡ₚ [task_view "t-fresh" Fixture.fresh_record false;
                 task_view "t-aged" Fixture.aged_record true].
Proof.
  split; [reflexivity|]. split; [reflexivity|]. split; [reflexivity|].
  eexists. split; [vm_compute; reflexivity|].
  apply Permutation_swap.
Qed.

Lemma execute_route_differs_from_rpc_witness :
  (∀ h, sdk_entry ≠ HandlerMember h)
  ∧ status (fst (execute_route sdk_entry Fixture.clock "ticktick_get_tags"
                   (Some (JObj ∅)) Fixture.two_tasks)) = 500%nat
  ∧ observe_rpc (fst (Fixture.rpc_call Fixture.clock "ticktick_get_tags"
                        (Some (JObj ∅)) Fixture.two_tasks))
    = Succeeded (Some (GenericResponse "Tags retrieved successfully"))
  ∧ observe_http (fst (execute_route sdk_entry Fixture.clock "ticktick_get_tags"
                         (Some (JObj ∅)) Fixture.two_tasks))
    ≠ observe_rpc (fst (Fixture.rpc_call Fixture.clock "ticktick_get_tags"
                          (Some (JObj ∅)) Fixture.two_tasks)).
Proof.
  assert (∀ h, sdk_entry ≠ HandlerMember h) as Hentry by (intros h; discriminate).
  split; [exact Hentry|]. split; [reflexivity|].
  apply (execute_route_differs_from_rpc Node.Date_parse Node.toISOString Node.toString
           Fixture.offline Fixture.render sdk_entry Fixture.clock (Some (JObj ∅))
           Fixture.two_tasks Hentry).
Defined.

Lemma unknown_tool_is_internal_error_witness :
  ("ticktick_no_such_tool" ∉ map tool_name tools)
  ∧ Fixture.rpc_call Fixture.clock "ticktick_no_such_tool" (Some (JObj ∅)) Fixture.two_tasks
    = (RpcError InternalError "Unknown tool: ticktick_no_such_tool", Fixture.two_tasks).
Proof.
  assert ("ticktick_no_such_tool" ∉ map tool_name tools) as Hname.
  { compute_done. }
  split; [exact Hname|].
  apply (unknown_tool_is_internal_error Node.Date_parse Node.toISOString Node.toString
           Fixture.offline Fixture.render Fixture.clock "ticktick_no_such_tool"
           (Some (JObj ∅)) Fixture.two_tasks Hname).
Defined.

(** The mock handler of the Genspark variant answers every name, in the
    catalog or not, with a success. *)
Lemma genspark_answers_every_name js_toString name args :
  Genspark.rpc_call js_toString name args
  = RpcResult (MockResult (Some (JStr name)) (Some args)).
Proof. reflexivity. Qed.

(** Its execute-by-name route looks the handler up in a member that the
    server of the SDK does not have, and answers every request with status
    500. *)
Lemma genspark_route_never_reaches_the_handler js_toString name req_body :
  status (Genspark.call_route js_toString Genspark.sdk_requestHandlers name req_body)
  = 500%nat.
Proof.
  unfold Genspark.call_route.
  by destruct (member_of req_body "arguments").
Qed.

(** Were the handlers found there, the route would hand the call handler
    a request whose [params] is the whole JSON-RPC message, so that the
    handler finds neither the name nor the arguments. *)
Lemma genspark_route_loses_the_name js_toString name args :
  Genspark.call_route js_toString (Some (Genspark.registered js_toString)) name
    (Some (JObj {[ "arguments" := args ]}))
  = {| status := 200; body := Success None (Some (MockResult None None)) |}.
Proof. reflexivity. Qed.

(** * Further properties *)

(** ** The cache store *)

(** X1: [initializeCache] leaves a file that exists as it is, readable or
    not; it creates the empty table when the file is absent and the disk can
    be written; running it again changes nothing more, and what [loadCache]
    returns is the same before and after. *)
Theorem initializeCache_keeps_existing (d : Disk) :
  (existsSync d = true → initializeCache d = d)
  ∧ (cache_file d = Missing → writable d = true →
     cache_file (initializeCache d) = Holds (Serialized empty_cache))
  ∧ initializeCache (initializeCache d) = initializeCache d
  ∧ loadCache (initializeCache d) = loadCache d.
Proof.
  destruct d as [[| |c] []]; repeat split; done.
Qed.

Lemma initializeCache_keeps_existing_witness :
  (existsSync Fixture.two_tasks = true
   ∧ initializeCache Fixture.two_tasks = Fixture.two_tasks)
  ∧ (cache_file Fixture.no_file = Missing
     ∧ writable Fixture.no_file = true
     ∧ cache_file (initializeCache Fixture.no_file) = Holds (Serialized empty_cache)).
Proof.
  split.
  - split; [reflexivity|].
    exact (proj1 (initializeCache_keeps_existing Fixture.two_tasks) eq_refl).
  - split; [reflexivity|]. split; [reflexivity|].
    exact (proj1 (proj2 (initializeCache_keeps_existing Fixture.no_file)) eq_refl eq_refl).
Defined.


Section PutFurther.

Variable Date_parse : string → option Z.
Variable toISOString : Z → string.
Variable js_toString : JSON → string.

Abbreviation put := (addTaskToCache toISOString).
Abbreviation record := (cache_record toISOString).
Abbreviation stale := (isTaskStale Date_parse js_toString).

(** X3: when the loaded document has no [tasks] member (or is not an
    object at all), [addTaskToCache] changes nothing: the assignment throws,
    the error is swallowed, and no table is ever created. *)
Theorem put_needs_tasks_member
    (now : Z) (taskId : string) (projectId title : option JSON) (d : Disk) :
  (∀ top, loadCache d = JObj top → top !! "tasks" = None) →
  put now taskId projectId title d = d.
Proof.
  intros Hnone. unfold addTaskToCache, assign_task.
  destruct (loadCache d) as [| | | | |top] eqn:Hload; simpl; try done.
  by rewrite (Hnone top eq_refl).
Qed.

(** X4: on a working cache, registrations of two different task ids
    commute up to the order in which the file lists its keys: whichever
    comes first, the table loaded afterwards has the same record under
    every task id. *)
Theorem puts_commute
    (t1 t2 : Z) (id1 id2 : string) (p1 ttl1 p2 ttl2 : option JSON)
    (d : Disk) (top tasks : gmap string JSON) :
  holds_table d top tasks →
  id1 ≠ id2 →
  ∃ tasks21 tasks12,
    tasks_of (loadCache (put t1 id1 p1 ttl1 (put t2 id2 p2 ttl2 d))) = Some tasks21
    ∧ tasks_of (loadCache (put t2 id2 p2 ttl2 (put t1 id1 p1 ttl1 d))) = Some tasks12
    ∧ ∀ id, tasks21 !! id = tasks12 !! id.
Proof.
  intros Hd Hne.
  pose proof (put_holds_table toISOString t1 id1 p1 ttl1 d top tasks Hd) as H1.
  pose proof (put_holds_table toISOString t2 id2 p2 ttl2 d top tasks Hd) as H2.
  rewrite (put_table toISOString _ _ _ _ _ _ _ H1), (put_table toISOString _ _ _ _ _ _ _ H2).
  simpl. unfold tasks_of. rewrite !lookup_insert_eq.
  eexists _, _. split; [done|]. split; [done|].
  intros id. by rewrite assign_member_comm.
Qed.

(** X5: staleness only grows with time: a record reported stale at some
    instant is reported stale at every later instant. *)
Theorem stale_stays_stale (now later : Z) (task : JSON) :
  (now ≤ later)%Z →
  stale now task = Ok true →
  stale later task = Ok true.
Proof.
  intros Hle. unfold isTaskStale.
  destruct (member task "cached_at") as [cached_at|]; simpl; [|done].
  destruct (truthy cached_at); simpl; [|done].
  destruct (date_value _ _ cached_at) as [[t|]|]; simpl; [|done|done].
  intros [= H%Z.ltb_lt]. f_equal. apply Z.ltb_lt. lia.
Qed.


End PutFurther.

Lemma put_needs_tasks_member_witness :
  (∀ top, loadCache Sample.no_tasks_key = JObj top → top !! "tasks" = None)
  ∧ addTaskToCache Node.toISOString 1710072000000 "t1" (Some (JStr "p1"))
      (Some (JStr "Buy milk")) Sample.no_tasks_key
    = Sample.no_tasks_key.
Proof.
  assert (∀ top, loadCache Sample.no_tasks_key = JObj top → top !! "tasks" = None) as H.
  { intros top [= <-]. reflexivity. }
  split; [exact H|].
  exact (put_needs_tasks_member Node.toISOString 1710072000000 "t1" (Some (JStr "p1"))
           (Some (JStr "Buy milk")) Sample.no_tasks_key H).
Defined.

Lemma puts_commute_witness :
  let put := addTaskToCache Node.toISOString in
  holds_table Fixture.two_tasks Sample.two_tasks_top Sample.fresh_and_aged
  ∧ "t-a" ≠ "t-b"
  ∧ ∃ tasks21 tasks12,
      tasks_of (loadCache
                  (put 1710072000000 "t-a" (Some (JStr "p1")) (Some (JStr "A"))
                     (put 1710072001000 "t-b" (Some (JStr "p2")) (Some (JStr "B"))
                        Fixture.two_tasks)))
      = Some tasks21
      ∧ tasks_of (loadCache
                    (put 1710072001000 "t-b" (Some (JStr "p2")) (Some (JStr "B"))
                       (put 1710072000000 "t-a" (Some (JStr "p1")) (Some (JStr "A"))
                          Fixture.two_tasks)))
        = Some tasks12
      ∧ ∀ id, tasks21 !! id = tasks12 !! id.
Proof.
  intros put.
  assert (holds_table Fixture.two_tasks Sample.two_tasks_top Sample.fresh_and_aged) as Hd
    by (by repeat split).
  assert ("t-a" ≠ "t-b") as Hne by discriminate.
  split; [exact Hd|]. split; [exact Hne|].
  exact (puts_commute Node.toISOString 1710072000000 1710072001000 "t-a" "t-b"
           (Some (JStr "p1")) (Some (JStr "A")) (Some (JStr "p2")) (Some (JStr "B"))
           Fixture.two_tasks Sample.two_tasks_top Sample.fresh_and_aged Hd Hne).
Defined.

Lemma stale_stays_stale_witness :
  (1710072000000 ≤ 1710075600000)%Z
  ∧ isTaskStale Node.Date_parse Node.toString 1710072000000 Fixture.aged_record = Ok true
  ∧ isTaskStale Node.Date_parse Node.toString 1710075600000 Fixture.aged_record = Ok true.
Proof.
  assert (1710072000000 ≤ 1710075600000)%Z as Hle by lia.
  split; [exact Hle|]. split; [reflexivity|].
  exact (stale_stays_stale Node.Date_parse Node.toString 1710072000000 1710075600000
           Fixture.aged_record Hle eq_refl).
Defined.


(** ** Listing the cache *)

Lemma mapM_total {A B} (f : A → result B) (l : list A) :
  (∀ x, x ∈ l → ∃ y, f x = Ok y) →
  ∃ ys, mapM f l = Ok ys
        ∧ length ys = length l
        ∧ ∀ x y, x ∈ l → f x = Ok y → y ∈ ys.
Proof.
  induction l as [|x l IH]; intros Hall.
  - exists []. split; [done|]. split; [done|]. intros x y Hx. by apply elem_of_nil in Hx.
  - destruct (Hall x) as [y Hy]; [by left|].
    destruct IH as (ys & Hys & Hlen & Hin); [intros x' Hx'; apply Hall; by right|].
    exists (y :: ys). simpl. rewrite Hy, Hys. simpl.
    split; [done|]. split; [by rewrite Hlen|].
    intros x' y' [->|Hx']%elem_of_cons Hfx'.
    + rewrite Hy in Hfx'. injection Hfx' as ->. by left.
    + right. by apply (Hin x').
Qed.

Lemma mapM_throws {A B} (f : A → result B) (l : list A) (x : A) (e : JSError) :
  x ∈ l → f x = Throw e → ∃ e', mapM f l = Throw e'.
Proof.
  induction l as [|x' l IH]; intros Hx Hfx; [by apply elem_of_nil in Hx|].
  simpl. destruct (f x') as [y|e'] eqn:Hfx'; simpl; [|by eexists].
  apply elem_of_cons in Hx as [->|Hx]; [congruence|].
  destruct (IH Hx Hfx) as [e'' ->]. by eexists.
Qed.

Lemma mapM_elem_of {A B} (f : A → result B) (l : list A) (ys : list B) (y : B) :
  mapM f l = Ok ys → y ∈ ys → ∃ x, x ∈ l ∧ f x = Ok y.
Proof.
  revert ys. induction l as [|x l IH]; intros ys; simpl.
  - intros [= <-] Hy. by apply elem_of_nil in Hy.
  - destruct (f x) as [y'|] eqn:Hfx; simpl; [|done].
    destruct (mapM f l) as [ys'|]; simpl; [|done].
    intros [= <-] [->|Hy]%elem_of_cons.
    + exists x. split; [by left|done].
    + destruct (IH ys' eq_refl Hy) as (x' & Hx' & Hfx').
      exists x'. split; [by right|done].
Qed.

Lemma List_filter_sublist {A} (f : A → bool) (l : list A) : sublist (List.filter f l) l.
Proof.
  induction l as [|x l IH]; simpl; [constructor|].
  destruct (f x); by constructor.
Qed.

(** The entry of a record has the record's members, beside [id] and
    [is_stale]. *)
Lemma task_view_member id props is_stale k :
  k ≠ "is_stale" → k ≠ "id" →
  task_view id (JObj props) is_stale !! k = props !! k.
Proof.
  intros H1 H2. unfold task_view. simpl.
  rewrite lookup_insert_ne by done.
  rewrite list_to_map_to_list, lookup_union_l; [done|].
  by rewrite lookup_singleton_ne.
Qed.


Section Listing.

Variable Date_parse : string → option Z.
Variable js_toString : JSON → string.

Abbreviation stale := (isTaskStale Date_parse js_toString).
Abbreviation listing := (getCachedTasks Date_parse js_toString).
Abbreviation text_of := (to_text js_toString).
Abbreviation selected :=
  (fun (project_id include_stale : option JSON) (views : list (gmap string JSON)) =>
     let tasks :=
       if truthy project_id
       then List.filter (fun t : gmap string JSON =>
                           strict_eq (t !! "project_id") project_id) views
       else views in
     if negb (truthy include_stale)
     then List.filter (fun t : gmap string JSON => negb (truthy (t !! "is_stale"))) tasks
     else tasks).

Lemma to_text_converts v : converts v = true → ∃ s, text_of v = Ok s.
Proof.
  unfold converts, to_text.
  destruct v as [[| | | |xs|props]|]; try (by eexists).
  - intros ->. by eexists.
  - intros ->. by eexists.
Qed.


Lemma entry_text_shows t :
  shows t = true → entry_text Date_parse js_toString t = Ok tt.
Proof.
  unfold shows, entry_text.
  intros [[[H1 H2]%andb_prop H3]%andb_prop H4]%andb_prop.
  destruct (to_text_converts _ H1) as [s1 ->].
  destruct (to_text_converts _ H2) as [s2 ->].
  destruct (to_text_converts _ H3) as [s3 ->]. simpl.
  pose proof (date_value_converts Date_parse js_toString (t !! "cached_at")) as Hc.
  rewrite H4 in Hc. by destruct Hc as [time ->].
Qed.

Lemma stale_defined now id task :
  task ≠ JNull → shows (task_view id task false) = true → ∃ b, stale now task = Ok b.
Proof.
  intros Hnull Hshows.
  destruct task as [| | | | |props]; try done; try (by eexists).
  rewrite isTaskStale_record.
  apply andb_prop in Hshows as [_ Hc]. rewrite task_view_member in Hc by done.
  pose proof (date_value_converts Date_parse js_toString (props !! "cached_at")) as Ht.
  rewrite Hc in Ht. destruct Ht as [time ->].
  destruct (truthy _); by eexists.
Qed.

(** What a listing that succeeds went through. *)
Lemma listing_inv clock args d shown :
  fst (listing clock args d) = Ok (CachedTasks shown) →
  ∃ entries views project_id include_stale,
    member (loadCache d) "tasks" = Ok entries
    ∧ mapM (fun '(id, task) =>
              is_stale <- stale (clock 0%nat) task ;;
              Ok (task_view id task is_stale))
           (own_entries (js_or entries (JObj ∅))) = Ok views
    ∧ member_of args "project_id" = Ok project_id
    ∧ member_of args "include_stale" = Ok include_stale
    ∧ shown = selected project_id include_stale views.
Proof.
  unfold getCachedTasks. simpl.
  destruct (member (loadCache d) "tasks") as [entries|]; simpl; [|done].
  destruct (mapM _ (own_entries _)) as [views|] eqn:Hviews; simpl; [|done].
  destruct (member_of args "project_id") as [project_id|]; simpl; [|done].
  destruct (member_of args "include_stale") as [include_stale|]; simpl; [|done].
  destruct (mapM (entry_text _ _) _) as [texts|]; simpl; [|done].
  intros [= <-]. by exists entries, views, project_id, include_stale.
Qed.

Lemma selected_elem_of project_id include_stale views t :
  t ∈ selected project_id include_stale views → t ∈ views.
Proof.
  simpl. destruct (truthy project_id), (negb (truthy include_stale)); intros Ht.
  - apply list_elem_of_In, List.filter_In in Ht as [Ht _].
    apply List.filter_In in Ht as [Ht _]. by apply list_elem_of_In.
  - apply list_elem_of_In, List.filter_In in Ht as [Ht _]. by apply list_elem_of_In.
  - apply list_elem_of_In, List.filter_In in Ht as [Ht _]. by apply list_elem_of_In.
  - done.
Qed.

(** A listing whose entries all convert succeeds with the entries that
    pass the filters. *)
Lemma listing_run clock props d tasks views :
  tasks_of (loadCache d) = Some tasks →
  mapM (fun '(id, task) =>
          is_stale <- stale (clock 0%nat) task ;;
          Ok (task_view id task is_stale))
       (map_to_list tasks) = Ok views →
  Forall (fun t => shows t = true) views →
  fst (listing clock (Some (JObj props)) d)
  = Ok (CachedTasks (selected (props !! "project_id") (props !! "include_stale") views)).
Proof.
  intros (top & Hload & Htasks)%tasks_of_inv Hviews Hshow.
  unfold getCachedTasks. rewrite Hload. simpl. rewrite Htasks. simpl.
  rewrite Hviews. simpl.
  match goal with
  | |- context [mapM (entry_text ?p ?s) ?l] =>
      destruct (mapM_total (entry_text p s) l) as (texts & -> & _)
  end; [|done].
  intros t Ht. exists tt. apply entry_text_shows.
  rewrite Forall_forall in Hshow. apply Hshow.
  by apply (selected_elem_of (props !! "project_id") (props !! "include_stale")).
Qed.

(** The entries of a table whose records can all be listed. *)
Lemma views_of_listable now tasks :
  listable tasks →
  ∃ views,
    mapM (fun '(id, task) =>
            is_stale <- stale now task ;;
            Ok (task_view id task is_stale))
         (map_to_list tasks) = Ok views
    ∧ length views = size tasks
    ∧ (∀ id task, tasks !! id = Some task →
         ∃ b, stale now task = Ok b ∧ task_view id task b ∈ views)
    ∧ Forall (fun t => shows t = true) views.
Proof.
  intros Hlistable.
  match goal with
  | |- context [mapM ?f ?l] => destruct (mapM_total f l) as (views & Hviews & Hlen & Hin)
  end.
  { intros [id task] Hentry%elem_of_map_to_list.
    destruct (Hlistable id task Hentry) as [Hnull Hshows].
    destruct (stale_defined now id task Hnull (Hshows false)) as [b Hb].
    simpl. rewrite Hb. simpl. by eexists. }
  exists views. split; [done|]. split; [by rewrite Hlen, length_map_to_list|]. split.
  - intros id task Hid.
    destruct (Hlistable id task Hid) as [Hnull Hshows].
    destruct (stale_defined now id task Hnull (Hshows false)) as [b Hb].
    exists b. split; [done|].
    apply (Hin (id, task)); [by apply elem_of_map_to_list|].
    simpl. by rewrite Hb.
  - apply Forall_forall. intros t Ht.
    destruct (mapM_elem_of _ _ _ _ Hviews Ht) as ([id task] & Hentry & Hrun).
    apply elem_of_map_to_list in Hentry.
    destruct (Hlistable id task Hentry) as [_ Hshows].
    simpl in Hrun. destruct (stale now task) as [b|]; simpl in Hrun; [|done].
    injection Hrun as <-. apply Hshows.
Qed.

(** X7: the listing of a document that is an object without a [tasks]
    member (or with a falsy one) is empty, not a failure. *)
Theorem listing_without_tasks_member
    (clock : nat → Z) (props : gmap string JSON) (d : Disk) (top : gmap string JSON) :
  loadCache d = JObj top →
  truthy (top !! "tasks") = false →
  listing clock (Some (JObj props)) d = (Ok (CachedTasks []), d).
Proof.
  intros Hload Hfalsy. unfold getCachedTasks. rewrite Hload. simpl.
  assert (js_or (top !! "tasks") (JObj ∅) = JObj ∅) as ->.
  { unfold js_or. rewrite Hfalsy. by destruct (top !! "tasks"). }
  simpl. rewrite map_to_list_empty. simpl.
  by destruct (truthy (props !! "project_id")), (truthy (props !! "include_stale")).
Qed.

(** X8: one [null] record in the table makes the whole listing fail,
    whatever the arguments. *)
Theorem listing_fails_on_null_record
    (clock : nat → Z) (args : option JSON) (d : Disk)
    (tasks : gmap string JSON) (id : string) :
  tasks_of (loadCache d) = Some tasks →
  tasks !! id = Some JNull →
  ∃ message,
    listing clock args d = (Throw (Error ("Failed to get cached tasks: " ++ message)), d).
Proof.
  intros (top & Hload & Htasks)%tasks_of_inv Hnull.
  unfold getCachedTasks. rewrite Hload. simpl. rewrite Htasks. simpl.
  match goal with
  | |- context [mapM ?f (map_to_list tasks)] =>
      destruct (mapM_throws f (map_to_list tasks) (id, JNull)
                  (TypeError "Cannot read properties of null (reading 'cached_at')"))
        as [e ->]
  end.
  - by apply elem_of_map_to_list.
  - done.
  - simpl. by eexists.
Qed.

(** X10: every entry that a listing shows passes the filters asked for:
    its [project_id] is strictly equal to a truthy [project_id] argument,
    and it is not stale when [include_stale] is missing or falsy; and
    whenever the listing that asks for everything succeeds too, the listing
    is a sublist of it. *)
Theorem listing_respects_filters
    (clock : nat → Z) (props : gmap string JSON) (d : Disk)
    (shown : list (gmap string JSON)) :
  fst (listing clock (Some (JObj props)) d) = Ok (CachedTasks shown) →
  Forall (fun t : gmap string JSON =>
            (truthy (props !! "project_id") = true →
             strict_eq (t !! "project_id") (props !! "project_id") = true)
            ∧ (truthy (props !! "include_stale") = false →
               t !! "is_stale" = Some (JBool false)))
         shown
  ∧ ∀ everything,
      fst (listing clock (Some (JObj {[ "include_stale" := JBool true ]})) d)
      = Ok (CachedTasks everything) →
      sublist shown everything.
Proof.
  intros (entries & views & project_id & include_stale
          & Hentries & Hviews & Hpid & Hinc & ->)%listing_inv.
  simpl in Hpid, Hinc. injection Hpid as <-. injection Hinc as <-.
  split.
  - assert (Forall (fun t : gmap string JSON => ∃ b, t !! "is_stale" = Some (JBool b)) views)
      as Hflag.
    { eapply mapM_Forall; [|exact Hviews].
      intros [id task] view. simpl.
      destruct (isTaskStale _ _ _ _) as [b|]; simpl; [|done].
      intros [= <-]. exists b. unfold task_view. by rewrite lookup_insert_eq. }
    rewrite Forall_forall in Hflag.
    apply Forall_forall. intros t Ht. simpl in Ht. split.
    + intros Hpid. rewrite Hpid in Ht.
      destruct (truthy (props !! "include_stale")); simpl in Ht.
      * by apply list_elem_of_In, List.filter_In in Ht as [_ Heq].
      * apply list_elem_of_In, List.filter_In in Ht as [Ht _].
        by apply List.filter_In in Ht as [_ Heq].
    + intros Hinc. rewrite Hinc in Ht. simpl in Ht.
      apply list_elem_of_In, List.filter_In in Ht as [Ht Hfresh].
      assert (t ∈ views) as Hin.
      { destruct (truthy (props !! "project_id")).
        - apply List.filter_In in Ht as [Ht _]. by apply list_elem_of_In.
        - by apply list_elem_of_In. }
      destruct (Hflag t Hin) as [b Hb]. rewrite Hb in Hfresh |- *.
      simpl in Hfresh. by destruct b.
  - intros everything
      (entries' & views' & project_id' & include_stale'
       & Hentries' & Hviews' & Hpid' & Hinc' & ->)%listing_inv.
    simpl in Hpid', Hinc'. injection Hpid' as <-. injection Hinc' as <-.
    rewrite Hentries in Hentries'. injection Hentries' as <-.
    rewrite Hviews in Hviews'. injection Hviews' as <-.
    rewrite lookup_singleton_ne by done. rewrite lookup_singleton_eq. simpl.
    destruct (truthy (props !! "project_id")), (truthy (props !! "include_stale"));
      simpl.
    + apply List_filter_sublist.
    + etrans; apply List_filter_sublist.
    + done.
    + apply List_filter_sublist.
Qed.

(** X11: on a table whose records can all be listed (none is [null], and
    the members that the text shows convert), a listing with a truthy
    [include_stale] and no [project_id] succeeds and shows one entry for
    every record: as many entries as records, and for each record the entry
    that carries its staleness. *)
Theorem listing_shows_every_record
    (clock : nat → Z) (props : gmap string JSON) (d : Disk) (tasks : gmap string JSON) :
  tasks_of (loadCache d) = Some tasks →
  listable tasks →
  truthy (props !! "project_id") = false →
  truthy (props !! "include_stale") = true →
  ∃ shown,
    fst (listing clock (Some (JObj props)) d) = Ok (CachedTasks shown)
    ∧ length shown = size tasks
    ∧ ∀ id task, tasks !! id = Some task →
        ∃ b, stale (clock 0%nat) task = Ok b ∧ task_view id task b ∈ shown.
Proof.
  intros Htasks Hlistable Hpid Hinc.
  destruct (views_of_listable (clock 0%nat) tasks Hlistable)
    as (views & Hviews & Hlen & Hin & Hshow).
  exists views. split; [|done].
  rewrite (listing_run clock props d tasks views Htasks Hviews Hshow).
  by rewrite Hpid, Hinc.
Qed.

End Listing.

Lemma listable_fresh_and_aged : listable Sample.fresh_and_aged.
Proof.
  intros id task. unfold Sample.fresh_and_aged.
  rewrite lookup_insert. case_decide as Haged.
  - intros [= <-]. subst id. split; [done|]. by intros [].
  - rewrite lookup_singleton. case_decide as Hfresh; [|done].
    intros [= <-]. subst id. split; [done|]. by intros [].
Qed.

Lemma listing_without_tasks_member_witness :
  loadCache Sample.no_tasks_key = JObj {[ "version" := JNum 3 ]}
  ∧ truthy (({[ "version" := JNum 3 ]} : gmap string JSON) !! "tasks") = false
  ∧ getCachedTasks Node.Date_parse Node.toString Fixture.clock (Some (JObj ∅))
      Sample.no_tasks_key
    = (Ok (CachedTasks []), Sample.no_tasks_key).
Proof.
  split; [reflexivity|]. split; [reflexivity|].
  exact (listing_without_tasks_member Node.Date_parse Node.toString Fixture.clock ∅
           Sample.no_tasks_key {[ "version" := JNum 3 ]} eq_refl eq_refl).
Defined.

Lemma listing_fails_on_null_record_witness :
  tasks_of (loadCache Sample.null_record)
  = Some (<["t-null" := JNull]> {[ "t-fresh" := Fixture.fresh_record ]})
  ∧ (<["t-null" := JNull]> {[ "t-fresh" := Fixture.fresh_record ]} : gmap string JSON)
      !! "t-null" = Some JNull
  ∧ ∃ message,
      getCachedTasks Node.Date_parse Node.toString Fixture.clock
        (Some (JObj {[ "include_stale" := JBool true ]})) Sample.null_record
      = (Throw (Error ("Failed to get cached tasks: " ++ message)), Sample.null_record).
Proof.
  split; [reflexivity|]. split; [reflexivity|].
  exact (listing_fails_on_null_record Node.Date_parse Node.toString Fixture.clock
           (Some (JObj {[ "include_stale" := JBool true ]})) Sample.null_record
           (<["t-null" := JNull]> {[ "t-fresh" := Fixture.fresh_record ]}) "t-null"
           eq_refl eq_refl).
Defined.

Lemma listing_respects_filters_witness :
  let props : gmap string JSON := {[ "project_id" := JStr "p1" ]} in
  let shown := [task_view "t-fresh" Fixture.fresh_record false] in
  fst (getCachedTasks Node.Date_parse Node.toString Fixture.clock (Some (JObj props))
         Fixture.two_tasks)
  = Ok (CachedTasks shown)
  ∧ Forall (fun t : gmap string JSON =>
              (truthy (props !! "project_id") = true →
               strict_eq (t !! "project_id") (props !! "project_id") = true)
              ∧ (truthy (props !! "include_stale") = false →
                 t !! "is_stale" = Some (JBool false)))
           shown.
Proof.
  intros props shown.
  assert (fst (getCachedTasks Node.Date_parse Node.toString Fixture.clock
                 (Some (JObj props)) Fixture.two_tasks)
          = Ok (CachedTasks shown)) as Hshown by (vm_compute; reflexivity).
  split; [exact Hshown|].
  exact (proj1 (listing_respects_filters Node.Date_parse Node.toString Fixture.clock props
                  Fixture.two_tasks shown Hshown)).
Defined.

Lemma listing_shows_every_record_witness :
  let props : gmap string JSON := {[ "include_stale" := JBool true ]} in
  tasks_of (loadCache Fixture.two_tasks) = Some Sample.fresh_and_aged
  ∧ listable Sample.fresh_and_aged
  ∧ truthy (props !! "project_id") = false
  ∧ truthy (props !! "include_stale") = true
  ∧ ∃ shown,
      fst (getCachedTasks Node.Date_parse Node.toString Fixture.clock (Some (JObj props))
             Fixture.two_tasks)
      = Ok (CachedTasks shown)
      ∧ length shown = size Sample.fresh_and_aged
      ∧ ∀ id task, Sample.fresh_and_aged !! id = Some task →
          ∃ b, isTaskStale Node.Date_parse Node.toString (Fixture.clock 0%nat) task = Ok b
               ∧ task_view id task b ∈ shown.
Proof.
  intros props.
  split; [reflexivity|]. split; [exact listable_fresh_and_aged|].
  split; [reflexivity|]. split; [reflexivity|].
  exact (listing_shows_every_record Node.Date_parse Node.toString Fixture.clock props
           Fixture.two_tasks Sample.fresh_and_aged eq_refl listable_fresh_and_aged
           eq_refl eq_refl).
Defined.

(** ** Registering through the handler *)

Section Register.

Variable Date_parse : string → option Z.
Variable toISOString : Z → string.
Variable js_toString : JSON → string.

Abbreviation register := (registerTaskId toISOString js_toString).
Abbreviation record := (cache_record toISOString).
Abbreviation stale := (isTaskStale Date_parse js_toString).
Abbreviation listing := (getCachedTasks Date_parse js_toString).
Abbreviation key_of := (property_key js_toString).





End Register.



(** ** Bulk import: failures and growth *)

Section ImportFurther.

Variable toISOString : Z → string.

Abbreviation import := (importFromCsv toISOString).

(** X14: an import succeeds exactly when [csv_data] is a string whose
    first non-blank line is a header naming the three columns; every failure
    is an [Error] whose message starts with "Failed to import CSV: ", and
    leaves the cache file as it was. *)
Theorem import_fails_cleanly (clock : nat → Z) (args : option JSON) (d : Disk) :
  ((∃ imported, fst (import clock args d) = Ok (CsvImported imported))
   ↔ ∃ csv_data header rows,
       member_of args "csv_data" = Ok (Some (JStr csv_data))
       ∧ csv_lines csv_data = header :: rows
       ∧ valid_header header = true)
  ∧ (∀ e, fst (import clock args d) = Throw e →
       snd (import clock args d) = d
       ∧ ∃ message, e = Error ("Failed to import CSV: " ++ message)).
Proof.
  unfold importFromCsv.
  destruct (member_of args "csv_data") as [[[| | |text| |]|]|e0] eqn:Hargs; simpl;
    try (split; [split; [by intros [count Hcount]|by intros (c & h & r & Hc & _)]
                |intros e [= <-]; split; [done|by eexists]]).
  destruct (csv_lines text) as [|header rows] eqn:Hlines; simpl.
  { split; [split; [by intros [count Hcount]|]|intros e [= <-]; split; [done|by eexists]].
    intros (c & h & r & [= <-] & Hl & _). congruence. }
  destruct (valid_header header) eqn:Hheader; simpl.
  - destruct (import_rows toISOString clock 1 rows 0 d) as [imported d'] eqn:Hrun. simpl.
    split; [|done]. split; [|by eexists].
    intros _. by exists text, header, rows.
  - split; [split; [by intros [count Hcount]|]|intros e [= <-]; split; [done|by eexists]].
    intros (c & h & r & [= <-] & Hl & Hv). congruence.
Qed.

Lemma import_tasks_size clock rows :
  ∀ i (tasks : gmap string JSON),
    (size tasks ≤ size (import_tasks toISOString clock i rows tasks))%nat
    ∧ (size (import_tasks toISOString clock i rows tasks)
       ≤ size tasks + length (List.filter well_formed rows))%nat.
Proof.
  induction rows as [|line rest IH]; intros i tasks; simpl; [lia|].
  assert (well_formed line = bool_decide (is_Some (row_entry line))) as ->.
  { unfold well_formed. by destruct (row_entry line). }
  destruct (row_entry line) as [[[a b] c]|]; simpl.
  - match goal with
    | |- context [import_tasks _ _ _ _ (assign_member tasks a ?r)] =>
        pose proof (IH (S i) (assign_member tasks a r)) as [Hlow Hhigh];
        pose proof (assign_member_size tasks a r) as Hsize
    end.
    lia.
  - apply IH.
Qed.

Lemma import_tasks_keeps clock rows id :
  ∀ i (tasks : gmap string JSON),
    is_Some (tasks !! id) →
    is_Some (import_tasks toISOString clock i rows tasks !! id).
Proof. intros i tasks Hid. apply import_tasks_dom. by left. Qed.

(** X15: on a working cache, an import never removes a record, and the
    table grows by at most the number that the import reports: rows that
    carry the same task id are counted each, and leave one record. *)
Theorem import_grows_by_at_most_count
    (clock : nat → Z) (args : option JSON) (csv_data header : string)
    (rows : list string) (d : Disk) (top tasks : gmap string JSON) :
  member_of args "csv_data" = Ok (Some (JStr csv_data)) →
  csv_lines csv_data = header :: rows →
  valid_header header = true →
  holds_table d top tasks →
  ∃ imported tasks',
    fst (import clock args d) = Ok (CsvImported imported)
    ∧ tasks_of (loadCache (snd (import clock args d))) = Some tasks'
    ∧ (size tasks ≤ size tasks')%nat
    ∧ (size tasks' ≤ size tasks + imported)%nat
    ∧ ∀ id, is_Some (tasks !! id) → is_Some (tasks' !! id).
Proof.
  intros Hargs Hlines Hheader Hd.
  rewrite (importFromCsv_rows toISOString clock args csv_data header rows d) by done.
  destruct (import_rows_table toISOString clock rows 1 0 d top tasks Hd)
    as (d' & Hrun & Hw & Hload & Htasks).
  rewrite Hrun. simpl.
  exists (length (List.filter well_formed rows)),
         (import_tasks toISOString clock 1 rows tasks).
  split; [done|]. split; [rewrite Hload; unfold tasks_of; by rewrite Htasks|].
  pose proof (import_tasks_size clock rows 1 tasks) as [Hlow Hhigh].
  split; [done|]. split; [done|].
  intros id. apply import_tasks_keeps.
Qed.

End ImportFurther.

Lemma import_fails_cleanly_witness :
  let csv := unlines ["id,project,name"; "t1,p1,Buy milk"] in
  fst (importFromCsv Node.toISOString Fixture.clock (csv_args csv) Fixture.two_tasks)
  = Throw (Error "Failed to import CSV: CSV must have columns: task_id, project_id, title")
  ∧ snd (importFromCsv Node.toISOString Fixture.clock (csv_args csv) Fixture.two_tasks)
    = Fixture.two_tasks.
Proof.
  intros csv.
  assert (fst (importFromCsv Node.toISOString Fixture.clock (csv_args csv) Fixture.two_tasks)
          = Throw (Error "Failed to import CSV: CSV must have columns: task_id, project_id, title"))
    as Hfails by reflexivity.
  split; [exact Hfails|].
  exact (proj1 (proj2 (import_fails_cleanly Node.toISOString Fixture.clock (csv_args csv)
                         Fixture.two_tasks) _ Hfails)).
Defined.

Lemma import_grows_by_at_most_count_witness :
  let rows := ["t1,p1,Buy milk"; "t1,p1,Buy oat milk"] in
  let csv := unlines ("task_id,project_id,title" :: rows) in
  member_of (csv_args csv) "csv_data" = Ok (Some (JStr csv))
  ∧ csv_lines csv = "task_id,project_id,title" :: rows
  ∧ valid_header "task_id,project_id,title" = true
  ∧ holds_table Fixture.two_tasks Sample.two_tasks_top Sample.fresh_and_aged
  ∧ ∃ imported tasks',
      fst (importFromCsv Node.toISOString Fixture.clock (csv_args csv) Fixture.two_tasks)
      = Ok (CsvImported imported)
      ∧ tasks_of (loadCache (snd (importFromCsv Node.toISOString Fixture.clock
                                    (csv_args csv) Fixture.two_tasks)))
        = Some tasks'
      ∧ (size Sample.fresh_and_aged ≤ size tasks')%nat
      ∧ (size tasks' ≤ size Sample.fresh_and_aged + imported)%nat
      ∧ ∀ id, is_Some (Sample.fresh_and_aged !! id) → is_Some (tasks' !! id).
Proof.
  intros rows csv.
  assert (holds_table Fixture.two_tasks Sample.two_tasks_top Sample.fresh_and_aged) as Hd
    by (by repeat split).
  split; [reflexivity|]. split; [reflexivity|]. split; [reflexivity|]. split; [exact Hd|].
  exact (import_grows_by_at_most_count Node.toISOString Fixture.clock (csv_args csv) csv
           "task_id,project_id,title" rows Fixture.two_tasks Sample.two_tasks_top
           Sample.fresh_and_aged eq_refl eq_refl eq_refl Hd).
Defined.

(** ** The dispatcher and the routes *)

Section DispatcherFurther.

Variable Date_parse : string → option Z.
Variable toISOString : Z → string.
Variable js_toString : JSON → string.
Variable upstream : string → string → option JSON → result JSON.
Variable render : string → list (option JSON) → result string.

Abbreviation the_cases := (cases Date_parse toISOString js_toString upstream render).
Abbreviation the_switch := (switch Date_parse toISOString js_toString upstream render).
Abbreviation call := (callTool Date_parse toISOString js_toString upstream render).
Abbreviation rpc := (rpc_call Date_parse toISOString js_toString upstream render).
Abbreviation the_routes := (routes Date_parse toISOString js_toString upstream render).

Lemma switch_case name handler :
  the_switch name = Some handler → (name, handler) ∈ the_cases.
Proof.
  unfold switch. destruct (List.find _ _) as [[label h]|] eqn:Hfind; [|done].
  intros [= <-]. apply List.find_some in Hfind as [Hin Heq].
  apply String.eqb_eq in Heq. simpl in Heq. subst. by apply list_elem_of_In.
Qed.

Lemma readers_leave_the_cache :
  Forall (fun c : string * Handler =>
            c.1 ∈ cache_writers ∨ ∀ clock args d, (c.2 clock args d).2 = d)
         the_cases.
Proof.
  unfold cases.
  repeat (apply Forall_cons; split;
          [first [by right | left; compute_done]|]).
  constructor.
Qed.

(** X16: only [ticktick_create_task], [ticktick_register_task_id] and
    [ticktick_import_from_csv] can change the cache file: a call of any other
    name, registered or not, succeeding or not, leaves the file as it was. *)
Theorem only_cache_writers_write
    (clock : nat → Z) (name : string) (args : option JSON) (d : Disk) :
  name ∉ cache_writers →
  snd (call clock name args d) = d.
Proof.
  intros Hname. unfold callTool.
  destruct (the_switch name) as [handler|] eqn:Hswitch; [|done].
  pose proof readers_leave_the_cache as Hall. rewrite Forall_forall in Hall.
  destruct (Hall _ (switch_case _ _ Hswitch)) as [Hwriter|Hsame]; [done|].
  specialize (Hsame clock args d). simpl in Hsame.
  by destruct (handler clock args d).
Qed.

(** X17: no answer of the RPC transport carries an error code other than
    [InternalError]: whatever a handler throws, an unknown name included,
    reaches the caller as an internal error. *)
Theorem rpc_errors_are_internal
    (clock : nat → Z) (name : string) (args : option JSON) (d : Disk)
    (code : ErrorCode) (message : string) :
  fst (rpc clock name args d) = RpcError code message →
  code = InternalError.
Proof.
  unfold rpc_call, callTool.
  destruct (the_switch name) as [handler|]; [|by intros [= <- _]].
  destruct (handler clock args d) as [[r|e] d']; simpl; [done|].
  by intros [= <- _].
Qed.

(** X18: the catalog and the dispatcher agree: a name is advertised by
    [tools/list] exactly when the switch has a case for it, and no name is
    advertised twice. *)
Theorem catalog_matches_switch (name : string) :
  (name ∈ map tool_name tools ↔ is_Some (the_switch name))
  ∧ NoDup (map tool_name tools).
Proof.
  split; [|apply catalog_names_distinct]. split.
  - apply switch_registered.
  - intros [handler Hswitch].
    destruct (decide (name ∈ map tool_name tools)) as [Hin|Hout]; [done|].
    by rewrite (switch_unregistered Date_parse toISOString js_toString upstream render
                  name Hout) in Hswitch.
Qed.

Lemma route_agrees clock name handler req_body d :
  the_switch name = Some handler →
  shortcut_route handler clock req_body d
  = (http_of_rpc (fst (rpc clock name req_body d)), snd (rpc clock name req_body d)).
Proof.
  intros Hswitch. unfold shortcut_route, rpc_call.
  rewrite (call_registered Date_parse toISOString js_toString upstream render
             clock name handler req_body d Hswitch).
  by destruct (handler clock req_body d) as [[r|e] d'].
Qed.

(** X19: every per-operation route answers as the RPC call of its
    operation does: status 200 with the same result, or status 500 with the
    same message, and the same cache file afterwards. *)
Theorem routes_agree_with_rpc :
  Forall2 (fun (route : string * Handler) (name : string) =>
             ∀ clock req_body d,
               shortcut_route route.2 clock req_body d
               = (http_of_rpc (fst (rpc clock name req_body d)),
                  snd (rpc clock name req_body d)))
          the_routes route_operations.
Proof.
  unfold routes, route_operations.
  repeat (apply Forall2_cons; split;
          [intros clock req_body d; by apply route_agrees|]).
  constructor.
Qed.

(** X23: the eighteen placeholder operations always succeed with a fixed
    acknowledgement: whatever the arguments (none included), whatever the
    upstream does, and without touching the cache file. *)
Theorem placeholders_always_succeed (name : string) :
  name ∈ placeholders →
  ∃ message,
    ∀ clock args d, call clock name args d = (Ok (GenericResponse message), d).
Proof.
  unfold placeholders. intros Hin.
  repeat (apply elem_of_cons in Hin as [->|Hin]; [by eexists|]).
  by apply elem_of_nil in Hin.
Qed.

(** X9: the six operations that read a member of their arguments fail
    with an internal error when the call carries no arguments object, and
    leave the cache file as it was. *)
Theorem missing_arguments_fail (name : string) (clock : nat → Z) (d : Disk) :
  name ∈ argument_readers →
  ∃ message, call clock name None d = (Throw (McpError InternalError message), d).
Proof.
  unfold argument_readers. intros Hin.
  repeat (apply elem_of_cons in Hin as [->|Hin];
          [try (by eexists)|]); [|by apply elem_of_nil in Hin].
  rewrite (call_registered _ _ _ _ _ _ _ (getCachedTasks Date_parse js_toString))
    by reflexivity.
  unfold getCachedTasks.
  destruct (member (loadCache d) "tasks") as [entries|]; simpl; [|by eexists].
  destruct (mapM _ _); simpl; by eexists.
Qed.

End DispatcherFurther.

Lemma only_cache_writers_write_witness :
  ("ticktick_get_cached_tasks" ∉ cache_writers)
  ∧ snd (Fixture.callTool Fixture.clock "ticktick_get_cached_tasks" (Some (JObj ∅))
           Fixture.two_tasks)
    = Fixture.two_tasks.
Proof.
  assert ("ticktick_get_cached_tasks" ∉ cache_writers) as Hname by compute_done.
  split; [exact Hname|].
  exact (only_cache_writers_write Node.Date_parse Node.toISOString Node.toString
           Fixture.offline Fixture.render Fixture.clock "ticktick_get_cached_tasks"
           (Some (JObj ∅)) Fixture.two_tasks Hname).
Defined.

Lemma rpc_errors_are_internal_witness :
  fst (Fixture.rpc_call Fixture.clock "ticktick_create_project" None Fixture.two_tasks)
  = RpcError InternalError
      "Failed to create project: Cannot read properties of undefined (reading 'name')"
  ∧ InternalError = InternalError.
Proof.
  assert (fst (Fixture.rpc_call Fixture.clock "ticktick_create_project" None
                 Fixture.two_tasks)
          = RpcError InternalError
              "Failed to create project: Cannot read properties of undefined (reading 'name')")
    as Hanswer by reflexivity.
  split; [exact Hanswer|].
  exact (rpc_errors_are_internal Node.Date_parse Node.toISOString Node.toString
           Fixture.offline Fixture.render Fixture.clock "ticktick_create_project" None
           Fixture.two_tasks InternalError _ Hanswer).
Defined.

Lemma placeholders_always_succeed_witness :
  "ticktick_share_project" ∈ placeholders
  ∧ ∃ message,
      ∀ clock args d,
        Fixture.callTool clock "ticktick_share_project" args d
        = (Ok (GenericResponse message), d).
Proof.
  assert ("ticktick_share_project" ∈ placeholders) as Hin by compute_done.
  split; [exact Hin|].
  exact (placeholders_always_succeed Node.Date_parse Node.toISOString Node.toString
           Fixture.offline Fixture.render "ticktick_share_project" Hin).
Defined.

Lemma missing_arguments_fail_witness :
  "ticktick_start_focus_session" ∈ argument_readers
  ∧ ∃ message,
      Fixture.callTool Fixture.clock "ticktick_start_focus_session" None Fixture.two_tasks
      = (Throw (McpError InternalError message), Fixture.two_tasks).
Proof.
  assert ("ticktick_start_focus_session" ∈ argument_readers) as Hin by compute_done.
  split; [exact Hin|].
  exact (missing_arguments_fail Node.Date_parse Node.toISOString Node.toString
           Fixture.offline Fixture.render "ticktick_start_focus_session" Fixture.clock
           Fixture.two_tasks Hin).
Defined.

(** ** Creating a task and the upstream client *)

Lemma js_or_falsy (a : option JSON) (b : JSON) : truthy a = false → js_or a b = b.
Proof. intros H. unfold js_or. rewrite H. by destruct a. Qed.

Section CreateTask.

Variable Date_parse : string → option Z.
Variable toISOString : Z → string.
Variable js_toString : JSON → string.
Variable upstream : string → string → option JSON → result JSON.
Variable render : string → list (option JSON) → result string.

Abbreviation body_of := (taskData Date_parse toISOString js_toString).
Abbreviation create := (createTask Date_parse toISOString js_toString upstream render).
Abbreviation record := (cache_record toISOString).

(** X20: the request body of a task created from arguments that leave
    out (or give falsy values for) everything but the title: empty content,
    the inbox [inbox119467736] as project, priority 0, no due date, no
    tags. *)
Theorem taskData_defaults (props : gmap string JSON) :
  truthy (props !! "content") = false →
  truthy (props !! "project_id") = false →
  truthy (props !! "priority") = false →
  truthy (props !! "due_date") = false →
  truthy (props !! "tags") = false →
  body_of (Some (JObj props))
  = Ok (JObj (obj_of [("title", props !! "title");
                      ("content", Some (JStr ""));
                      ("projectId", Some (JStr "inbox119467736"));
                      ("priority", Some (JNum 0));
                      ("dueDate", Some JNull);
                      ("tags", Some (JArr []))])).
Proof.
  intros Hcontent Hproject Hpriority Hdue Htags. unfold taskData. simpl.
  rewrite Hdue. simpl.
  by rewrite !js_or_falsy.
Qed.

(** X21: a truthy [due_date] that does not give a time makes
    [createTask] fail before anything is sent, with "Invalid time value"
    when it converts and denotes no time, and with the error of the
    conversion when it does not convert: the outcome is the same whatever
    the upstream would answer, and the cache file is left as it was. *)
Theorem invalid_due_date_rejected
    (clock : nat → Z) (props : gmap string JSON) (d : Disk) :
  truthy (props !! "due_date") = true →
  (date_value Date_parse js_toString (props !! "due_date") = Ok None →
   create clock (Some (JObj props)) d
   = (Throw (Error "Failed to create task: Invalid time value"), d))
  ∧ (∀ e, date_value Date_parse js_toString (props !! "due_date") = Throw e →
          create clock (Some (JObj props)) d
          = (Throw (Error ("Failed to create task: " ++ error_message e)), d)).
Proof.
  intros Htruthy. unfold createTask, taskData. simpl. rewrite Htruthy.
  split.
  - by intros ->.
  - by intros e ->.
Qed.


(** X24: when the upstream refuses the creation, [createTask] fails with
    the upstream's message behind "Failed to create task: " and writes
    nothing to the cache. *)
Theorem createTask_upstream_failure
    (clock : nat → Z) (props : gmap string JSON) (data : JSON) (e : JSError) (d : Disk) :
  body_of (Some (JObj props)) = Ok data →
  upstream "/task" "POST" (Some data) = Throw e →
  create clock (Some (JObj props)) d
  = (Throw (Error ("Failed to create task: " ++ error_message e)), d).
Proof.
  intros Hbody Hanswer. unfold createTask. rewrite Hbody. simpl.
  by rewrite Hanswer.
Qed.

End CreateTask.

Section UpstreamFailure.

Variable Date_parse : string → option Z.
Variable toISOString : Z → string.
Variable js_toString : JSON → string.
Variable render : string → list (option JSON) → result string.
Variable TICKTICK_ACCESS_TOKEN : string.
Variable fetch : FetchRequest → result FetchResponse.

Abbreviation request := (makeApiRequest TICKTICK_ACCESS_TOKEN fetch).

(** X25: a response that is not [ok] makes every upstream request fail
    with the status and reason in the message, and the RPC caller of
    [ticktick_get_projects] receives that message as an internal error
    behind "Failed to get projects: ". *)
Theorem upstream_status_surfaces (response : FetchResponse) :
  (∀ r, fetch r = Ok response) →
  response_ok response = false →
  let message := "API request failed: " ++ pretty (response_status response)
                 ++ " " ++ response_statusText response in
  (∀ endpoint method data, request endpoint method data = Throw (Error message))
  ∧ ∀ clock args d,
      rpc_call Date_parse toISOString js_toString request render clock
        "ticktick_get_projects" args d
      = (RpcError InternalError ("Failed to get projects: " ++ message), d).
Proof.
  intros Hfetch Hok message.
  assert (∀ endpoint method data, request endpoint method data = Throw (Error message))
    as Hrequest.
  { intros endpoint method data. unfold makeApiRequest.
    rewrite Hfetch. simpl. by rewrite Hok. }
  split; [exact Hrequest|].
  intros clock args d. unfold rpc_call, callTool. simpl.
  unfold getProjects. by rewrite Hrequest.
Qed.

End UpstreamFailure.

Lemma taskData_defaults_witness :
  let props : gmap string JSON := {[ "title" := JStr "Buy milk" ]} in
  truthy (props !! "content") = false
  ∧ truthy (props !! "project_id") = false
  ∧ truthy (props !! "priority") = false
  ∧ truthy (props !! "due_date") = false
  ∧ truthy (props !! "tags") = false
  ∧ taskData Node.Date_parse Node.toISOString Node.toString (Some (JObj props))
    = Ok (JObj (obj_of [("title", Some (JStr "Buy milk"));
                        ("content", Some (JStr ""));
                        ("projectId", Some (JStr "inbox119467736"));
                        ("priority", Some (JNum 0));
                        ("dueDate", Some JNull);
                        ("tags", Some (JArr []))])).
Proof.
  intros props. repeat (split; [reflexivity|]).
  exact (taskData_defaults Node.Date_parse Node.toISOString Node.toString props
           eq_refl eq_refl eq_refl eq_refl eq_refl).
Defined.

Lemma invalid_due_date_rejected_witness :
  let props : gmap string JSON :=
    <["due_date" := JStr "tomorrow"]> {[ "title" := JStr "Buy milk" ]} in
  truthy (props !! "due_date") = true
  ∧ date_value Node.Date_parse Node.toString (props !! "due_date") = Ok None
  ∧ createTask Node.Date_parse Node.toISOString Node.toString Sample.echo Fixture.render
      Fixture.clock (Some (JObj props)) Fixture.two_tasks
    = (Throw (Error "Failed to create task: Invalid time value"), Fixture.two_tasks).
Proof.
  intros props. split; [reflexivity|]. split; [reflexivity|].
  exact (proj1 (invalid_due_date_rejected Node.Date_parse Node.toISOString Node.toString
                  Sample.echo Fixture.render Fixture.clock props Fixture.two_tasks
                  eq_refl) eq_refl).
Defined.


Lemma createTask_upstream_failure_witness :
  let props : gmap string JSON := {[ "title" := JStr "Buy milk" ]} in
  let sent : gmap string JSON :=
    obj_of [("title", Some (JStr "Buy milk")); ("content", Some (JStr ""));
            ("projectId", Some (JStr "inbox119467736")); ("priority", Some (JNum 0));
            ("dueDate", Some JNull); ("tags", Some (JArr []))] in
  taskData Node.Date_parse Node.toISOString Node.toString (Some (JObj props))
  = Ok (JObj sent)
  ∧ Fixture.offline "/task" "POST" (Some (JObj sent))
    = Throw (Error "API request failed: 503 Service Unavailable")
  ∧ createTask Node.Date_parse Node.toISOString Node.toString Fixture.offline
      Fixture.render Fixture.clock (Some (JObj props)) Fixture.two_tasks
    = (Throw (Error "Failed to create task: API request failed: 503 Service Unavailable"),
       Fixture.two_tasks).
Proof.
  intros props sent. split; [reflexivity|]. split; [reflexivity|].
  exact (createTask_upstream_failure Node.Date_parse Node.toISOString Node.toString
           Fixture.offline Fixture.render Fixture.clock props (JObj sent)
           (Error "API request failed: 503 Service Unavailable") Fixture.two_tasks
           eq_refl eq_refl).
Defined.

Lemma upstream_status_surfaces_witness :
  let response := {| response_ok := false; response_status := 404;
                     response_statusText := "Not Found"; response_json := Ok JNull |} in
  (∀ r, Sample.not_found r = Ok response)
  ∧ response_ok response = false
  ∧ ∀ clock args d,
      rpc_call Node.Date_parse Node.toISOString Node.toString
        (makeApiRequest "token" Sample.not_found) Fixture.render clock
        "ticktick_get_projects" args d
      = (RpcError InternalError
           "Failed to get projects: API request failed: 404 Not Found", d).
Proof.
  intros response.
  assert (∀ r, Sample.not_found r = Ok response) as Hfetch by (intros r; reflexivity).
  split; [exact Hfetch|]. split; [reflexivity|].
  exact (proj2 (upstream_status_surfaces Node.Date_parse Node.toISOString Node.toString
                  Fixture.render "token" Sample.not_found response Hfetch eq_refl)).
Defined.
